(** * Shallow embedding of package id3v24 (id3v24.go)

    Go strings and byte slices are modelled as [bytes], a list of byte
    values (each in 0..255).  Go's [string(x)] / [[]byte(x)] conversions are
    the identity on this representation.  Errors are modelled by [err], and
    Go's [(T, error)] results by [result T]. *)

From Stdlib Require Import ZArith List String Ascii Bool Lia.
From Stdlib Require DecimalZ.
Import ListNotations.
Open Scope Z_scope.

Definition bytes := list Z.

(** Turns a Rocq string literal into its bytes (only used to write literals). *)
Fixpoint str (s : string) : bytes :=
  match s with
  | EmptyString => []
  | String c s' => Z.of_nat (nat_of_ascii c) :: str s'
  end.

Definition NL : bytes := [10].

(** The two sentinel errors of the package. *)
Inductive err :=
| ErrBadChapterStartTime
| ErrZeroDuration.

Inductive result (A : Type) :=
| Ok (a : A)
| Err (e : err).
Arguments Ok {A} a.
Arguments Err {A} e.

(** Go's [uint32(x)] conversion: wrap-around modulo 2^32. *)
Definition to_uint32 (x : Z) : Z := x mod 2 ^ 32.

(** Go's [byte(x)] conversion: the low 8 bits. *)
Definition to_byte (x : Z) : Z := Z.land x 255.

(** ** Decimal formatting: [strconv.Itoa] and [fmt]'s [%d]. *)

Fixpoint uint_digits (u : Decimal.uint) : bytes :=
  match u with
  | Decimal.Nil => []
  | Decimal.D0 u' => 48 :: uint_digits u'
  | Decimal.D1 u' => 49 :: uint_digits u'
  | Decimal.D2 u' => 50 :: uint_digits u'
  | Decimal.D3 u' => 51 :: uint_digits u'
  | Decimal.D4 u' => 52 :: uint_digits u'
  | Decimal.D5 u' => 53 :: uint_digits u'
  | Decimal.D6 u' => 54 :: uint_digits u'
  | Decimal.D7 u' => 55 :: uint_digits u'
  | Decimal.D8 u' => 56 :: uint_digits u'
  | Decimal.D9 u' => 57 :: uint_digits u'
  end.

Definition Itoa (z : Z) : bytes :=
  match Z.to_int z with
  | Decimal.Pos u => uint_digits u
  | Decimal.Neg u => 45 :: uint_digits u
  end.

(** ** encoding/binary: [binary.BigEndian.PutUint32] on a 4-byte buffer. *)
Definition PutUint32 (v : Z) : bytes :=
  [ to_byte (Z.shiftr v 24); to_byte (Z.shiftr v 16);
    to_byte (Z.shiftr v 8); to_byte v ].

(** ** unicode/utf8: the decoding done by [for _, r := range s].
    Each step is [utf8.DecodeRuneInString]: a valid sequence yields its
    rune, anything else yields [RuneError] (U+FFFD) and advances one byte. *)

Definition RuneError : Z := 65533.

Definition is_cont (b : Z) : bool := (128 <=? b) && (b <=? 191).

(** Bounds on the second byte of a multi-byte sequence (the [first] and
    [acceptRanges] tables of unicode/utf8). *)
Definition second_lo (b0 : Z) : Z :=
  if b0 =? 224 then 160 else if b0 =? 240 then 144 else 128.
Definition second_hi (b0 : Z) : Z :=
  if b0 =? 237 then 159 else if b0 =? 244 then 143 else 191.

Definition in_second (b0 b1 : Z) : bool :=
  (second_lo b0 <=? b1) && (b1 <=? second_hi b0).

Fixpoint runes (s : bytes) : list Z :=
  match s with
  | [] => []
  | b0 :: s1 =>
      if b0 <? 128 then b0 :: runes s1
      else if (194 <=? b0) && (b0 <=? 223) then
        match s1 with
        | b1 :: s2 =>
            if in_second b0 b1
            then Z.lor (Z.shiftl (Z.land b0 31) 6) (Z.land b1 63) :: runes s2
            else RuneError :: runes s1
        | [] => RuneError :: runes s1
        end
      else if (224 <=? b0) && (b0 <=? 239) then
        match s1 with
        | b1 :: s2 =>
            match s2 with
            | b2 :: s3 =>
                if in_second b0 b1 && is_cont b2
                then Z.lor (Z.lor (Z.shiftl (Z.land b0 15) 12)
                                  (Z.shiftl (Z.land b1 63) 6)) (Z.land b2 63)
                     :: runes s3
                else RuneError :: runes s1
            | [] => RuneError :: runes s1
            end
        | [] => RuneError :: runes s1
        end
      else if (240 <=? b0) && (b0 <=? 244) then
        match s1 with
        | b1 :: s2 =>
            match s2 with
            | b2 :: s3 =>
                match s3 with
                | b3 :: s4 =>
                    if in_second b0 b1 && is_cont b2 && is_cont b3
                    then Z.lor (Z.lor (Z.lor (Z.shiftl (Z.land b0 7) 18)
                                             (Z.shiftl (Z.land b1 63) 12))
                                      (Z.shiftl (Z.land b2 63) 6)) (Z.land b3 63)
                         :: runes s4
                    else RuneError :: runes s1
                | [] => RuneError :: runes s1
                end
            | [] => RuneError :: runes s1
            end
        | [] => RuneError :: runes s1
        end
      else RuneError :: runes s1
  end.

(** ** TextFrame (id3v24.go:82) *)
Definition TextFrame (title : bytes) : bytes :=
  let frame := [1] in
  let frame := frame ++ [255; 254] in
  fold_left (fun frame r => frame ++ [to_byte r; 0]) (runes title) frame.

(** ** time.Parse, restricted to the layout elements used by the package.

    A layout is the sequence of chunks that [nextStdChunk] splits it into:
    literal prefixes and the std elements [15], [04], [05] and [.000]-style
    fractional seconds.  The parsed value is
    [Date(0, January, 1, hour, min, sec, nsec, UTC)]; all its fields are in
    range, so [Date] normalizes nothing and the accessors [Hour], [Minute],
    [Second] and [Nanosecond] return the parsed fields.  A [Time] is modelled
    by its UTC wall-clock fields. *)

Record Time := mkTime {
  year : Z; month : Z; day : Z;
  hour : Z; minute : Z; second : Z; nanosecond : Z }.

(** The fields [time.parse] starts from: year 0, January 1, midnight. *)
Definition time0 : Time := mkTime 0 1 1 0 0 0 0.

Definition set_hour (t : Time) (h : Z) : Time :=
  mkTime (year t) (month t) (day t) h (minute t) (second t) (nanosecond t).
Definition set_minute (t : Time) (m : Z) : Time :=
  mkTime (year t) (month t) (day t) (hour t) m (second t) (nanosecond t).
Definition set_second (t : Time) (s : Z) : Time :=
  mkTime (year t) (month t) (day t) (hour t) (minute t) s (nanosecond t).
Definition set_nanosecond (t : Time) (ns : Z) : Time :=
  mkTime (year t) (month t) (day t) (hour t) (minute t) (second t) ns.

Inductive chunk :=
| Lit (prefix : bytes)
| StdHour
| StdZeroMinute
| StdZeroSecond
| StdFracSecond0 (ndigits : nat).

Definition isDigitB (c : Z) : bool := (48 <=? c) && (c <=? 57).

(** [isDigit(s, i)] *)
Definition isDigit (s : bytes) (i : nat) : bool :=
  match nth_error s i with Some c => isDigitB c | None => false end.

Definition commaOrPeriod (c : Z) : bool := (c =? 46) || (c =? 44).

(** [getnum(s, fixed)] *)
Definition getnum (s : bytes) (fixed : bool) : option (Z * bytes) :=
  match s with
  | c0 :: s1 =>
      if negb (isDigitB c0) then None
      else match s1 with
           | c1 :: s2 =>
               if isDigitB c1 then Some ((c0 - 48) * 10 + (c1 - 48), s2)
               else if fixed then None else Some (c0 - 48, s1)
           | [] => if fixed then None else Some (c0 - 48, s1)
           end
  | [] => None
  end.

Fixpoint cutspace (s : bytes) : bytes :=
  match s with
  | 32 :: s' => cutspace s'
  | _ => s
  end.

(** [skip(value, prefix)]; recursion on the prefix, whose spaces are cut. *)
Fixpoint skip_fuel (fuel : nat) (value prefix : bytes) : option bytes :=
  match fuel with
  | O => Some value
  | S fuel' =>
      match prefix with
      | [] => Some value
      | p :: prefix' =>
          if p =? 32 then
            match value with
            | v :: _ => if negb (v =? 32) then None
                        else skip_fuel fuel' (cutspace value) (cutspace prefix)
            | [] => skip_fuel fuel' (cutspace value) (cutspace prefix)
            end
          else
            match value with
            | v :: value' => if v =? p then skip_fuel fuel' value' prefix' else None
            | [] => None
            end
      end
  end.

Definition skip (value prefix : bytes) : option bytes :=
  skip_fuel (S (List.length prefix)) value prefix.

(** [leadingInt]: the leading decimal digits, with its overflow checks. *)
Fixpoint leadingInt_acc (s : bytes) (x : Z) : option (Z * bytes) :=
  match s with
  | c :: s' =>
      if isDigitB c then
        if x >? 2 ^ 63 / 10 then None
        else let x' := x * 10 + (c - 48) in
             if x' >? 2 ^ 63 then None else leadingInt_acc s' x'
      else Some (x, s)
  | [] => Some (x, [])
  end.

Definition leadingInt (s : bytes) : option (Z * bytes) := leadingInt_acc s 0.

(** time's own [atoi]: an optional sign, then digits only. *)
Definition atoi (s : bytes) : option Z :=
  let '(neg, s) := match s with
                   | c :: s' => if (c =? 45) || (c =? 43) then (c =? 45, s') else (false, s)
                   | [] => (false, s)
                   end in
  match leadingInt s with
  | Some (q, []) => Some (if neg then - q else q)
  | _ => None
  end.

(** [parseNanoseconds(value, nbytes)]; [None] stands for both its error
    and its "fractional second out of range" outcome. *)
Definition parseNanoseconds (value : bytes) (nbytes : nat) : option Z :=
  match value with
  | [] => None
  | c :: value' =>
      if negb (commaOrPeriod c) then None
      else
        let nbytes := Nat.min nbytes 10 in
        match atoi (firstn (nbytes - 1) value') with
        | None => None
        | Some ns => if ns <? 0 then None
                     else Some (ns * 10 ^ (10 - Z.of_nat nbytes))
        end
  end.

(** [nextStdChunk(layout)] reports a fractional-second element next. *)
Fixpoint next_std_is_frac (layout : list chunk) : bool :=
  match layout with
  | Lit _ :: rest => next_std_is_frac rest
  | StdFracSecond0 _ :: _ => true
  | _ => false
  end.

Fixpoint count_digits (s : bytes) : nat :=
  match s with
  | c :: s' => if isDigitB c then S (count_digits s') else O
  | [] => O
  end.

(** The main loop of [time.parse]: one std element per iteration. *)
Fixpoint parse_chunks (layout : list chunk) (value : bytes) (t : Time) : option Time :=
  match layout with
  | [] => match value with [] => Some t | _ => None end
  | Lit p :: rest =>
      match skip value p with
      | Some v => parse_chunks rest v t
      | None => None
      end
  | StdHour :: rest =>
      match getnum value false with
      | Some (h, v) =>
          if (h <? 0) || (24 <=? h) then None
          else parse_chunks rest v (set_hour t h)
      | None => None
      end
  | StdZeroMinute :: rest =>
      match getnum value true with
      | Some (m, v) =>
          if (m <? 0) || (60 <=? m) then None
          else parse_chunks rest v (set_minute t m)
      | None => None
      end
  | StdZeroSecond :: rest =>
      match getnum value true with
      | Some (s, v) =>
          if (s <? 0) || (60 <=? s) then None
          else
            let t' := set_second t s in
            if (2 <=? Z.of_nat (List.length v))%Z
               && commaOrPeriod (hd 0 v) && isDigit v 1 then
              if next_std_is_frac rest then parse_chunks rest v t'
              else
                (* no fractional second in the layout but one in the input *)
                let n := (2 + count_digits (skipn 2 v))%nat in
                match parseNanoseconds v n with
                | Some ns => parse_chunks rest (skipn n v) (set_nanosecond t' ns)
                | None => None
                end
            else parse_chunks rest v t'
      | None => None
      end
  | StdFracSecond0 k :: rest =>
      let ndigit := S k in
      if Nat.ltb (List.length value) ndigit then None
      else match parseNanoseconds value ndigit with
           | Some ns => parse_chunks rest (skipn ndigit value) (set_nanosecond t ns)
           | None => None
           end
  end.

Definition Parse (layout : list chunk) (value : bytes) : option Time :=
  parse_chunks layout value time0.

(** "15:04:05.000", "15:04:05.0" and "15:04:05" as [nextStdChunk] splits them. *)
Definition layout_000 : list chunk :=
  [StdHour; Lit (str ":"); StdZeroMinute; Lit (str ":"); StdZeroSecond; StdFracSecond0 3].
Definition layout_0 : list chunk :=
  [StdHour; Lit (str ":"); StdZeroMinute; Lit (str ":"); StdZeroSecond; StdFracSecond0 1].
Definition layout_s : list chunk :=
  [StdHour; Lit (str ":"); StdZeroMinute; Lit (str ":"); StdZeroSecond].

(** StringTimeToTime (id3v24.go:54) *)
Definition StringTimeToTime (t : bytes) : result Time :=
  match Parse layout_000 t with
  | Some d => Ok d
  | None =>
      match Parse layout_0 t with
      | Some d => Ok d
      | None =>
          match Parse layout_s t with
          | Some d => Ok d
          | None => Err ErrBadChapterStartTime
          end
      end
  end.

(** time.Duration constants, in nanoseconds. *)
Definition Millisecond : Z := 1000000.
Definition Second : Z := 1000 * Millisecond.
Definition Minute : Z := 60 * Second.
Definition Hour : Z := 60 * Minute.

(** StringTimeToMillis (id3v24.go:43); Go's [/] on durations truncates. *)
Definition StringTimeToMillis (t : bytes) : result Z :=
  match StringTimeToTime t with
  | Err e => Err e
  | Ok d =>
      Ok (to_uint32 (Z.quot (hour d * Hour + minute d * Minute
                             + second d * Second + nanosecond d) Millisecond))
  end.

(** ** Chapters and the tag *)

Record Chapter := mkChapter { Title : bytes; Start : bytes }.

(** The id3v2 tag is observed through the [tag.AddFrame(id, UnknownFrame{Body})]
    calls it receives: a log of (frame id, body) in call order. *)
Definition Tag := list (bytes * bytes).

Definition AddFrame (tag : Tag) (id body : bytes) : Tag := tag ++ [(id, body)].

(** The first loop of AddCHAPAndCTOC / GetFFmpegChaptersTXT: fills [starts]
    or returns the first parse error. *)
Fixpoint parse_starts (chapters : list Chapter) : result (list Z) :=
  match chapters with
  | [] => Ok []
  | ch :: rest =>
      match StringTimeToMillis (Start ch) with
      | Err e => Err e
      | Ok m => match parse_starts rest with
                | Err e => Err e
                | Ok ms => Ok (m :: ms)
                end
      end
  end.

(** Body of one CHAP frame (id3v24.go:128-146). *)
Definition chap_body (chapterID : bytes) (start end_ : Z) (title : bytes) : bytes :=
  let body := [] in
  let body := body ++ chapterID in
  let body := body ++ [0] in
  let body := body ++ PutUint32 start in
  let body := body ++ PutUint32 end_ in
  let body := body ++ [255; 255; 255; 255] in
  let body := body ++ [255; 255; 255; 255] in
  let titleFrame := TextFrame title in
  let titleHeader := str "TIT2" in
  let titleHeader := titleHeader ++ PutUint32 (to_uint32 (Z.of_nat (List.length titleFrame))) in
  let titleHeader := titleHeader ++ [0; 0] in
  let body := body ++ titleHeader in
  body ++ titleFrame.

(** End boundary of chapter [i] (id3v24.go:121-126). *)
Definition chapter_end (n : nat) (starts : list Z) (millis : Z) (i : nat) : Z :=
  if Nat.ltb i (n - 1) then nth (S i) starts 0 else millis.

(** The CHAP encoding loop (id3v24.go:119-150), from index [i] on. *)
Fixpoint chap_loop (n : nat) (starts : list Z) (millis : Z) (i : nat)
    (chs : list Chapter) (tag : Tag) (chapterIDs : list bytes) : Tag * list bytes :=
  match chs with
  | [] => (tag, chapterIDs)
  | ch :: rest =>
      let start := nth i starts 0 in
      let end_ := chapter_end n starts millis i in
      let chapterID := Itoa (Z.of_nat (i + 1)) in
      let body := chap_body chapterID start end_ (Title ch) in
      chap_loop n starts millis (S i) rest (AddFrame tag (str "CHAP") body)
        (chapterIDs ++ [chapterID])
  end.

(** Body of the CTOC frame (id3v24.go:153-159). *)
Definition ctoc_body (chapterIDs : list bytes) : bytes :=
  let ctocBody := str "toc" ++ [0] in
  let ctocBody := ctocBody ++ [1; 0] in
  let ctocBody := ctocBody ++ [to_byte (Z.of_nat (List.length chapterIDs))] in
  fold_left (fun b id => b ++ id ++ [0]) chapterIDs ctocBody.

(** AddCHAPAndCTOC (id3v24.go:98).  [duration] is [duration.TimeDuration],
    a time.Duration in nanoseconds.  Returns the tag after the call and
    the returned error ([None] for nil). *)
Definition AddCHAPAndCTOC (duration : Z) (tag : Tag) (chapters : list Chapter)
    : Tag * option err :=
  if Nat.eqb (List.length chapters) 0 then (tag, None)
  else if duration =? 0 then (tag, Some ErrZeroDuration)
  else
    let millis := to_uint32 (Z.quot duration Millisecond) in
    match parse_starts chapters with
    | Err e => (tag, Some e)
    | Ok starts =>
        let '(tag', chapterIDs) :=
          chap_loop (List.length chapters) starts millis 0 chapters tag [] in
        (AddFrame tag' (str "CTOC") (ctoc_body chapterIDs), None)
    end.

(** ** GetFFmpegChaptersTXT (id3v24.go:236) *)

Definition ffmetadata_header : bytes := str ";FFMETADATA1" ++ NL.

(** [fmt.Sprintf("\n[CHAPTER]\nTIMEBASE=1/1000\nSTART=%d\nEND=%d\ntitle=%s\n", ...)] *)
Definition chapter_block (start end_ : Z) (title : bytes) : bytes :=
  NL ++ str "[CHAPTER]" ++ NL ++ str "TIMEBASE=1/1000" ++ NL
  ++ str "START=" ++ Itoa start ++ NL ++ str "END=" ++ Itoa end_ ++ NL
  ++ str "title=" ++ title ++ NL.

Fixpoint txt_loop (n : nat) (starts : list Z) (millis : Z) (i : nat)
    (chs : list Chapter) (output : bytes) : bytes :=
  match chs with
  | [] => output
  | ch :: rest =>
      let start := nth i starts 0 in
      let end_ := chapter_end n starts millis i in
      txt_loop n starts millis (S i) rest (output ++ chapter_block start end_ (Title ch))
  end.

(** The returned slice ([None] for a nil slice) and error. *)
Definition GetFFmpegChaptersTXT (duration : Z) (chapters : list Chapter)
    : option bytes * option err :=
  let output := ffmetadata_header in
  if Nat.eqb (List.length chapters) 0 then (None, None)
  else if duration =? 0 then (None, Some ErrZeroDuration)
  else
    let millis := to_uint32 (Z.quot duration Millisecond) in
    match parse_starts chapters with
    | Err e => (None, Some e)
    | Ok starts =>
        (Some (txt_loop (List.length chapters) starts millis 0 chapters output), None)
    end.

Definition test_chapters : list Chapter :=
  [ mkChapter (str "Chapter 1") (str "00:00:00.000");
    mkChapter (str "Chapter 2") (str "00:00:10");
    mkChapter (str "Chapter 3") (str "00:00:20.5") ].

(** ** WriteFFmpegMetadataFile (id3v24.go:302) *)

Module TrackInfo.
Record t := mk {
  Title : bytes; Album : bytes; Artist : bytes; Genre : bytes; Year : bytes;
  Date : Time; Track : bytes; Comment : bytes; Description : bytes;
  Language : bytes; Copyright : bytes; CoverJPEG : bytes;
  Chapters : list Chapter }.
End TrackInfo.

(** The zero [time.Time]: January 1, year 1, 00:00:00 UTC. *)
Definition zeroTime : Time := mkTime 1 1 1 0 0 0 0.

Definition IsZero (t : Time) : bool :=
  (year t =? 1) && (month t =? 1) && (day t =? 1) && (hour t =? 0)
  && (minute t =? 0) && (second t =? 0) && (nanosecond t =? 0).

(** time's [appendInt(b, x, width)]: sign, zero padding to [width], digits. *)
Definition appendInt (x : Z) (width : nat) : bytes :=
  let ds := Itoa (Z.abs x) in
  (if x <? 0 then [45] else []) ++ repeat 48 (width - List.length ds) ++ ds.

(** [t.Format("2006")] and [t.Format("2006-01-02")]. *)
Definition Format_2006 (t : Time) : bytes := appendInt (year t) 4.
Definition Format_2006_01_02 (t : Time) : bytes :=
  appendInt (year t) 4 ++ [45] ++ appendInt (month t) 2 ++ [45] ++ appendInt (day t) 2.

(** [bytes.Replace(s, old, new, 1)] for a non-empty [old]: the first
    occurrence is replaced. *)
Definition bytes_eqb (x y : bytes) : bool :=
  if list_eq_dec Z.eq_dec x y then true else false.

Fixpoint replace_first (s old new : bytes) : bytes :=
  if bytes_eqb (firstn (List.length old) s) old then new ++ skipn (List.length old) s
  else match s with
       | [] => []
       | c :: s' => c :: replace_first s' old new
       end.

(** [utf8.AppendRune], as used by strings.Builder's [WriteRune]. *)
Definition encode_rune (r : Z) : bytes :=
  if (0 <=? r) && (r <? 128) then [r]
  else if (0 <=? r) && (r <? 2048) then
    [Z.lor 192 (Z.shiftr r 6); Z.lor 128 (Z.land r 63)]
  else
    let r := if (r <? 0) || (1114111 <? r) || ((55296 <=? r) && (r <=? 57343))
             then RuneError else r in
    if r <? 65536 then
      [Z.lor 224 (Z.shiftr r 12); Z.lor 128 (Z.land (Z.shiftr r 6) 63);
       Z.lor 128 (Z.land r 63)]
    else
      [Z.lor 240 (Z.shiftr r 18); Z.lor 128 (Z.land (Z.shiftr r 12) 63);
       Z.lor 128 (Z.land (Z.shiftr r 6) 63); Z.lor 128 (Z.land r 63)].

Definition is_linefeed (r : Z) : bool := (r =? 10) || (r =? 13).

(** [strings.Map(mapping, value)] with the mapping of appendKVPair, which
    drops '\n' and '\r' and keeps every other rune.  strings.Map returns
    [value] itself when nothing is dropped and [value] is valid UTF-8;
    otherwise it rebuilds the string rune by rune, writing [RuneError] for
    each invalid byte.  Both cases are the re-encoding of the kept runes. *)
Definition strip_linefeeds (value : bytes) : bytes :=
  flat_map encode_rune (filter (fun r => negb (is_linefeed r)) (runes value)).

(** Width of a leading [unicode.IsSpace] rune in UTF-8 ('\t', '\n', '\v',
    '\f', '\r', ' ', U+0085, U+00A0, U+1680, U+2000-U+200A, U+2028, U+2029,
    U+202F, U+205F, U+3000), 0 when the string does not start with one. *)
Definition is_ascii_space (b : Z) : bool := ((9 <=? b) && (b <=? 13)) || (b =? 32).

Definition is_space3 (b0 b1 b2 : Z) : bool :=
  ((b0 =? 225) && (b1 =? 154) && (b2 =? 128))
  || ((b0 =? 226) && (b1 =? 128) && (((128 <=? b2) && (b2 <=? 138))
                                     || (b2 =? 168) || (b2 =? 169) || (b2 =? 175)))
  || ((b0 =? 226) && (b1 =? 129) && (b2 =? 159))
  || ((b0 =? 227) && (b1 =? 128) && (b2 =? 128)).

Definition space_width (s : bytes) : nat :=
  match s with
  | b0 :: s1 =>
      if is_ascii_space b0 then 1
      else match s1 with
           | b1 :: s2 =>
               if (b0 =? 194) && ((b1 =? 133) || (b1 =? 160)) then 2
               else match s2 with
                    | b2 :: _ => if is_space3 b0 b1 b2 then 3 else 0
                    | [] => 0
                    end
           | [] => 0
           end
  | [] => 0
  end.

(** The same, for a trailing space rune, reading the string reversed. *)
Definition space_width_rev (r : bytes) : nat :=
  match r with
  | b0 :: r1 =>
      if is_ascii_space b0 then 1
      else match r1 with
           | b1 :: r2 =>
               if (b1 =? 194) && ((b0 =? 133) || (b0 =? 160)) then 2
               else match r2 with
                    | b2 :: _ => if is_space3 b2 b1 b0 then 3 else 0
                    | [] => 0
                    end
           | [] => 0
           end
  | [] => 0
  end.

Fixpoint trim_left_fuel (fuel : nat) (s : bytes) : bytes :=
  match fuel with
  | O => s
  | S f => match space_width s with
           | O => s
           | w => trim_left_fuel f (skipn w s)
           end
  end.

Fixpoint trim_rev_fuel (fuel : nat) (r : bytes) : bytes :=
  match fuel with
  | O => r
  | S f => match space_width_rev r with
           | O => r
           | w => trim_rev_fuel f (skipn w r)
           end
  end.

(** [strings.TrimSpace]: its ASCII fast path and its [TrimFunc(unicode.IsSpace)]
    fallback both drop the leading and the trailing space runes. *)
Definition TrimSpace (s : bytes) : bytes :=
  let l := trim_left_fuel (List.length s) s in
  rev (trim_rev_fuel (List.length l) (rev l)).

(** appendKVPair (id3v24.go:355) *)
Definition appendKVPair (output key value : bytes) : bytes :=
  let clean := strip_linefeeds value in
  output ++ (key ++ str "=" ++ TrimSpace clean ++ NL).

(** The key/value list of WriteFFmpegMetadataFile (id3v24.go:325-338);
    each single-entry map is one pair. *)
Definition kvpairs (input : TrackInfo.t) : list (bytes * bytes) :=
  [ (str "title", TrackInfo.Title input);
    (str "album", TrackInfo.Album input);
    (str "artist", TrackInfo.Artist input);
    (str "genre", TrackInfo.Genre input);
    (str "track", TrackInfo.Track input);
    (str "comment", TrackInfo.Comment input);
    (str "language", TrackInfo.Language input);
    (str "description", TrackInfo.Description input);
    (str "copyright", str "Copyright " ++ Format_2006 (TrackInfo.Date input)
                       ++ str " " ++ TrackInfo.Artist input) ]
  ++ (if negb (IsZero (TrackInfo.Date input))
      then [(str "date", Format_2006_01_02 (TrackInfo.Date input))] else []).

(** The loop over [kvpairs]: [len([]rune(v)) > 0] gates each pair. *)
Definition append_kvpairs (output : bytes) (kvs : list (bytes * bytes)) : bytes :=
  fold_left (fun output kv =>
               if Nat.ltb 0 (List.length (runes (snd kv)))
               then appendKVPair output (fst kv) (snd kv) else output) kvs output.

Definition test_track : TrackInfo.t :=
  TrackInfo.mk (str "Hello world") (str "Galaxy") (str "Universe") (str "Podcast") []
    (mkTime 2024 9 17 15 38 0 0) (str "5") [] [] [] [] [] test_chapters.

(** ** Specification-side vocabulary *)

(** The spec's ChapterInterval. *)
Record Interval := mkInterval {
  elementID : bytes; startMillis : Z; endMillis : Z; ititle : bytes }.

(** "n as 4 big-endian bytes" (of its low 32 bits). *)
Definition be32 (v : Z) : bytes :=
  [ v / 2 ^ 24 mod 256; v / 2 ^ 16 mod 256; v / 2 ^ 8 mod 256; v mod 256 ].

(** The CHAP body layout as the spec words it. *)
Definition spec_chap_body (iv : Interval) : bytes :=
  elementID iv ++ [0] ++ be32 (startMillis iv) ++ be32 (endMillis iv)
  ++ [255; 255; 255; 255] ++ [255; 255; 255; 255]
  ++ str "TIT2" ++ be32 (Z.of_nat (List.length (TextFrame (ititle iv)))) ++ [0; 0]
  ++ TextFrame (ititle iv).

Fixpoint mapi_from {A B : Type} (f : nat -> A -> B) (i : nat) (l : list A) : list B :=
  match l with
  | [] => []
  | x :: l' => f i x :: mapi_from f (S i) l'
  end.

(** The CHAP frame and the element id the loop produces at index [k]. *)
Definition chap_frame (n : nat) (starts : list Z) (millis : Z) (k : nat) (ch : Chapter)
    : bytes * bytes :=
  (str "CHAP", chap_body (Itoa (Z.of_nat (k + 1))) (nth k starts 0)
                 (chapter_end n starts millis k) (Title ch)).

Definition chapter_id (k : nat) (ch : Chapter) : bytes := Itoa (Z.of_nat (k + 1)).

(** The intervals the CHAP loop encodes. *)
Definition intervals (n : nat) (starts : list Z) (millis : Z) (chapters : list Chapter)
    : list Interval :=
  mapi_from (fun k ch => mkInterval (Itoa (Z.of_nat (k + 1))) (nth k starts 0)
                           (chapter_end n starts millis k) (Title ch)) 0 chapters.

(** The time-of-day ranges [time.parse] enforces. *)
Definition in_range (t : Time) : Prop :=
  0 <= hour t < 24 /\ 0 <= minute t < 60 /\ 0 <= second t < 60
  /\ 0 <= nanosecond t < 10 ^ 9.

(** Decimal value of a digit string. *)
Definition digit_value (ds : bytes) : Z := fold_left (fun acc c => acc * 10 + (c - 48)) ds 0.

Definition hour_field (hs : bytes) : Prop :=
  Forall (fun c => isDigitB c = true) hs /\ (List.length hs = 1 \/ List.length hs = 2)%nat.

Definition two_digit_field (ds : bytes) : Prop :=
  Forall (fun c => isDigitB c = true) ds /\ List.length ds = 2%nat.

(** The spec's "ordered list of parser patterns tried in sequence". *)
Fixpoint first_parse (layouts : list (list chunk)) (t : bytes) : option Time :=
  match layouts with
  | [] => None
  | l :: ls => match Parse l t with
               | Some d => Some d
               | None => first_parse ls t
               end
  end.

(** The three formats as the spec words them: hours (one or two digits),
    ':', two minute digits, ':', two second digits, then '.' and three
    digits, '.' and one digit, or nothing. *)
Inductive cls := Dig | Chr (c : Z).

Definition cls_matches (k : cls) (c : Z) : bool :=
  match k with Dig => isDigitB c | Chr x => c =? x end.

Fixpoint matches_cls (p : list cls) (s : bytes) : bool :=
  match p, s with
  | [], [] => true
  | k :: p', c :: s' => cls_matches k c && matches_cls p' s'
  | _, _ => false
  end.

Definition spec_format (hour_digits frac_digits : nat) : list cls :=
  repeat Dig hour_digits ++ [Chr 58; Dig; Dig; Chr 58; Dig; Dig]
  ++ match frac_digits with O => [] | k => Chr 46 :: repeat Dig k end.

Definition spec_matches_some_format (s : bytes) : bool :=
  existsb (fun p => matches_cls p s)
    (flat_map (fun frac => [spec_format 2 frac; spec_format 1 frac]) [3%nat; 1%nat; 0%nat]).

(** A value as appendKVPair writes it: line breaks dropped, then trimmed. *)
Definition sanitize (v : bytes) : bytes := TrimSpace (strip_linefeeds v).

(** The line a scalar field contributes: none for an empty value. *)
Definition field_line (key value : bytes) : bytes :=
  if bytes_eqb value [] then [] else key ++ str "=" ++ sanitize value ++ NL.

(** The synthesized copyright value ("Copyright <year> <artist>"). *)
Definition copyright_value (input : TrackInfo.t) : bytes :=
  str "Copyright " ++ Format_2006 (TrackInfo.Date input) ++ str " "
  ++ TrackInfo.Artist input.

(** A track whose title is a single space, with an explicit copyright
    string and every other field empty, no date and no chapters. *)
Definition blank_track : TrackInfo.t :=
  TrackInfo.mk [32] [] [] [] [] zeroTime [] [] [] [] (str "ACME") [] [].

(** ** AddCoverJPEG (id3v24.go:166) and WriteID3v2Tag (id3v24.go:185)

    These call the file system, mp3duration and the id3v2 library.  The
    outcome of each outside call is fixed in advance by an [Env]; an outside
    error is [IOErr code].  The tag is observed as the list of library
    calls made on it, in order; the deferred [tag.Close()] is listed last
    on every return after a successful [id3v2.Open]. *)
Inductive ioresult (A : Type) :=
| IOk (a : A)
| IOFail (code : nat).
Arguments IOk {A} a.
Arguments IOFail {A} code.

(** The errors WriteID3v2Tag returns: the package's own, or an outside one. *)
Inductive werr :=
| PkgErr (e : err)
| IOErr (code : nat).

(** ** The temporary files of WriteFFmpegChaptersTXT (id3v24.go:272) and
    WriteFFmpegMetadataFile (id3v24.go:302)

    The outcome of [os.CreateTemp] (the new file's name, or an error) and of
    [f.Write] on a file name and the bytes written (success, or an error)
    is fixed in advance by a [TempFS].  A successful run is observed as the
    name returned ([f.Name()]) and the bytes written into the file; on a
    failed [f.Write] the deferred function removes the file and the error is
    returned.  [f.Close()] and [os.Remove] return nothing the code uses. *)
Record TempFS := mkTempFS {
  os_CreateTemp : bytes -> ioresult bytes;   (* by the name pattern *)
  f_Write : bytes -> bytes -> ioresult unit  (* by file name and data *)
}.

Inductive wresult :=
| WOk (name contents : bytes)
| WErr (e : werr).

(** WriteFFmpegChaptersTXT (id3v24.go:272).  A nil slice writes nothing. *)
Definition WriteFFmpegChaptersTXT (fs : TempFS) (duration : Z) (chapters : list Chapter)
    : wresult :=
  match GetFFmpegChaptersTXT duration chapters with
  | (_, Some e) => WErr (PkgErr e)
  | (chaptersTXT, None) =>
      match os_CreateTemp fs (str "*-chapters.txt") with
      | IOFail n => WErr (IOErr n)
      | IOk name =>
          let data := match chaptersTXT with None => [] | Some t => t end in
          match f_Write fs name data with
          | IOFail n => WErr (IOErr n)
          | IOk _ => WOk name data
          end
      end
  end.

(** WriteFFmpegMetadataFile (id3v24.go:302). *)
Definition WriteFFmpegMetadataFile (fs : TempFS) (duration : Z) (input : TrackInfo.t)
    : wresult :=
  let output := ffmetadata_header in
  match GetFFmpegChaptersTXT duration (TrackInfo.Chapters input) with
  | (_, Some e) => WErr (PkgErr e)
  | (txt, None) =>
      let chaptersTXT := match txt with
                         | None => []
                         | Some t => replace_first t output []
                         end in
      match os_CreateTemp fs (str "*-ffmetadata.txt") with
      | IOFail n => WErr (IOErr n)
      | IOk name =>
          let output := append_kvpairs output (kvpairs input) in
          let output := output ++ chaptersTXT in
          match f_Write fs name output with
          | IOFail n => WErr (IOErr n)
          | IOk _ => WOk name output
          end
      end
  end.

(** The last two steps of both functions: create a temporary file by
    [pattern], then write [data] into it. *)
Definition create_and_write (fs : TempFS) (pattern data : bytes) : wresult :=
  match os_CreateTemp fs pattern with
  | IOFail n => WErr (IOErr n)
  | IOk name =>
      match f_Write fs name data with
      | IOFail n => WErr (IOErr n)
      | IOk _ => WOk name data
      end
  end.

(** A file system on which every temporary file is created and written. *)
Definition ok_fs : TempFS :=
  mkTempFS (fun pat => IOk (str "/tmp/1" ++ pat)) (fun _ _ => IOk tt).

(** A file system on which temporary files are created but every write
    fails with ENOSPC (28). *)
Definition full_fs : TempFS :=
  mkTempFS (fun pat => IOk (str "/tmp/1" ++ pat)) (fun _ _ => IOFail 28).

Module PictureFrame.
Record t := mk {
  Encoding : Z; MimeType : bytes; PictureType : Z; Description : bytes; Picture : bytes }.
End PictureFrame.

(** [id3v2.EncodingISO] (by its key, 0) and [id3v2.PTFrontCover] (3). *)
Definition EncodingISO : Z := 0.
Definition PTFrontCover : Z := 3.

(** The calls WriteID3v2Tag makes on the opened [*id3v2.Tag], in order;
    [Close] is the deferred [tag.Close()]. *)
Inductive TagCall :=
| SetVersion (v : Z)
| SetTitle (s : bytes)
| SetAlbum (s : bytes)
| SetArtist (s : bytes)
| SetGenre (s : bytes)
| SetYear (s : bytes)
| AddAttachedPicture (p : PictureFrame.t)
| AddFrameCall (id body : bytes)
| Save
| Close.

Record Env := mkEnv {
  mp3duration_ReadFile : bytes -> ioresult Z;  (* the Info's TimeDuration *)
  id3v2_Open : bytes -> ioresult unit;
  os_ReadFile : bytes -> ioresult bytes;
  tag_Save : ioresult unit }.

Definition AddCoverJPEG (env : Env) (tag : list TagCall) (jpegPath : bytes)
    : list TagCall * option werr :=
  match os_ReadFile env jpegPath with
  | IOFail n => (tag, Some (IOErr n))
  | IOk imgData =>
      let picFrame := PictureFrame.mk EncodingISO (str "image/jpeg") PTFrontCover
                        (str "Cover") imgData in
      (tag ++ [AddAttachedPicture picFrame], None)
  end.

(** AddCHAPAndCTOC on an id3v2 tag: the [tag.AddFrame] calls it makes
    (the frames it appends to an empty log) and its error. *)
Definition AddCHAPAndCTOC_calls (duration : Z) (tag : list TagCall) (chapters : list Chapter)
    : list TagCall * option err :=
  let '(frames, e) := AddCHAPAndCTOC duration [] chapters in
  (tag ++ map (fun f => AddFrameCall (fst f) (snd f)) frames, e).

(** [if len([]rune(v)) > 0 { tag.SetX(v) }] *)
Definition set_if (tag : list TagCall) (v : bytes) (call : bytes -> TagCall) : list TagCall :=
  if Nat.ltb 0 (List.length (runes v)) then tag ++ [call v] else tag.

Definition save_result (env : Env) : option werr :=
  match tag_Save env with IOk _ => None | IOFail n => Some (IOErr n) end.

Definition WriteID3v2Tag (env : Env) (mp3file : bytes) (input : TrackInfo.t)
    : list TagCall * option werr :=
  match mp3duration_ReadFile env mp3file with
  | IOFail n => ([], Some (IOErr n))
  | IOk di =>
    match id3v2_Open env mp3file with
    | IOFail n => ([], Some (IOErr n))
    | IOk _ =>
      let tag := [SetVersion 4] in
      let tag := set_if tag (TrackInfo.Title input) SetTitle in
      let tag := set_if tag (TrackInfo.Album input) SetAlbum in
      let tag := set_if tag (TrackInfo.Artist input) SetArtist in
      let tag := set_if tag (TrackInfo.Genre input) SetGenre in
      let tag := set_if tag (TrackInfo.Year input) SetYear in
      let '(tag, e) :=
        if Nat.ltb 0 (List.length (runes (TrackInfo.CoverJPEG input)))
        then AddCoverJPEG env tag (TrackInfo.CoverJPEG input) else (tag, None) in
      match e with
      | Some e => (tag ++ [Close], Some e)
      | None =>
        let '(tag, e) :=
          if Nat.ltb 0 (List.length (TrackInfo.Chapters input))
          then AddCHAPAndCTOC_calls di tag (TrackInfo.Chapters input) else (tag, None) in
        match e with
        | Some e => (tag ++ [Close], Some (PkgErr e))
        | None => (tag ++ [Save; Close], save_result env)
        end
      end
    end
  end.

(** An environment in which every outside call succeeds: the MP3 lasts
    [d] nanoseconds and every file read returns [data]. *)
Definition ok_env (d : Z) (data : bytes) : Env :=
  mkEnv (fun _ => IOk d) (fun _ => IOk tt) (fun _ => IOk data) (IOk tt).

(** The calls WriteID3v2Tag makes before the cover stage, written as one
    list: [SetVersion 4], then a setter for each non-empty field. *)
Definition field_calls (input : TrackInfo.t) : list TagCall :=
  SetVersion 4
  :: (if bytes_eqb (TrackInfo.Title input) [] then [] else [SetTitle (TrackInfo.Title input)])
  ++ (if bytes_eqb (TrackInfo.Album input) [] then [] else [SetAlbum (TrackInfo.Album input)])
  ++ (if bytes_eqb (TrackInfo.Artist input) [] then [] else [SetArtist (TrackInfo.Artist input)])
  ++ (if bytes_eqb (TrackInfo.Genre input) [] then [] else [SetGenre (TrackInfo.Genre input)])
  ++ (if bytes_eqb (TrackInfo.Year input) [] then [] else [SetYear (TrackInfo.Year input)]).

(** The picture call AddCoverJPEG makes for the image bytes [imgData]. *)
Definition cover_call (imgData : bytes) : TagCall :=
  AddAttachedPicture (PictureFrame.mk EncodingISO (str "image/jpeg") PTFrontCover
                        (str "Cover") imgData).

(** ** Readers for the produced bytes *)

(** [binary.BigEndian.Uint32] of four bytes. *)
Definition be32_value (b0 b1 b2 b3 : Z) : Z := b0 * 2 ^ 24 + b1 * 2 ^ 16 + b2 * 2 ^ 8 + b3.

Definition read_u32 (s : bytes) : option (Z * bytes) :=
  match s with
  | b0 :: b1 :: b2 :: b3 :: r => Some (be32_value b0 b1 b2 b3, r)
  | _ => None
  end.

(** The bytes before the first NUL, and the rest from the NUL on. *)
Fixpoint split_at_nul (s : bytes) : bytes * bytes :=
  match s with
  | [] => ([], [])
  | b :: s' => if b =? 0 then ([], s) else let '(a, r) := split_at_nul s' in (b :: a, r)
  end.

(** The fields of a CHAP body, as an ID3v2.4 reader sees them. *)
Record ChapFields := mkChapFields {
  cf_id : bytes; cf_start : Z; cf_end : Z; cf_start_offset : Z; cf_end_offset : Z;
  cf_frame_id : bytes; cf_flags : bytes; cf_payload : bytes }.

(** Reads a CHAP body: the NUL-terminated element id, four 32-bit fields,
    then one embedded frame (id, size, flags) whose payload must fill the
    rest of the body exactly. *)
Definition read_chap_body (body : bytes) : option ChapFields :=
  match split_at_nul body with
  | (id, _ :: r) =>
    match read_u32 r with
    | Some (st, r) =>
      match read_u32 r with
      | Some (en, r) =>
        match read_u32 r with
        | Some (so, r) =>
          match read_u32 r with
          | Some (eo, r) =>
            match read_u32 (skipn 4 r) with
            | Some (size, r') =>
              let payload := skipn 2 r' in
              if (List.length (firstn 4 r) =? 4)%nat && (List.length (firstn 2 r') =? 2)%nat
                 && (Z.of_nat (List.length payload) =? size)
              then Some (mkChapFields id st en so eo (firstn 4 r) (firstn 2 r') payload)
              else None
            | None => None
            end
          | None => None
          end
        | None => None
        end
      | None => None
      end
    | None => None
    end
  | (_, []) => None
  end.

(** UTF-16LE code units of a byte string. *)
Fixpoint utf16le_units (b : bytes) : list Z :=
  match b with
  | lo :: hi :: r => (lo + 256 * hi) :: utf16le_units r
  | _ => []
  end.

(** Reads an ID3v2.4 text frame payload in encoding 0x01 with the BOM
    0xFF 0xFE: its UTF-16LE code units. *)
Definition read_text_frame (f : bytes) : option (list Z) :=
  match f with
  | enc :: bom0 :: bom1 :: r =>
      if (enc =? 1) && (bom0 =? 255) && (bom1 =? 254) then Some (utf16le_units r) else None
  | _ => None
  end.

(** Unicode scalar values, and well-formed UTF-8 as their encodings. *)
Definition valid_scalar (r : Z) : Prop := 0 <= r <= 1114111 /\ ~ (55296 <= r <= 57343).

Definition valid_utf8 (v : bytes) : Prop :=
  exists rs, Forall valid_scalar rs /\ v = flat_map encode_rune rs.

(** Decoding check for one rune: [encode_rune r] is read back by [runes]
    as the single rune [r]; it holds for every scalar value. *)
Definition decode_ok (r : Z) : bool :=
  match encode_rune r with
  | [b0] => (b0 <? 128) && (b0 =? r)
  | [b0; b1] =>
      negb (b0 <? 128) && ((194 <=? b0) && (b0 <=? 223)) && in_second b0 b1
      && (Z.lor (Z.shiftl (Z.land b0 31) 6) (Z.land b1 63) =? r)
  | [b0; b1; b2] =>
      negb (b0 <? 128) && negb ((194 <=? b0) && (b0 <=? 223))
      && ((224 <=? b0) && (b0 <=? 239)) && (in_second b0 b1 && is_cont b2)
      && (Z.lor (Z.lor (Z.shiftl (Z.land b0 15) 12) (Z.shiftl (Z.land b1 63) 6))
            (Z.land b2 63) =? r)
  | [b0; b1; b2; b3] =>
      negb (b0 <? 128) && negb ((194 <=? b0) && (b0 <=? 223))
      && negb ((224 <=? b0) && (b0 <=? 239)) && ((240 <=? b0) && (b0 <=? 244))
      && (in_second b0 b1 && is_cont b2 && is_cont b3)
      && (Z.lor (Z.lor (Z.lor (Z.shiftl (Z.land b0 7) 18) (Z.shiftl (Z.land b1 63) 12))
                   (Z.shiftl (Z.land b2 63) 6)) (Z.land b3 63) =? r)
  | _ => false
  end.

(** * Proofs *)

(** ** Evaluation on sample inputs *)

Example stm_ex1 : StringTimeToMillis (str "00:00:20.5") = Ok 20500.
Proof. reflexivity. Qed.

Example stm_ex2 : StringTimeToMillis (str "00:00:10") = Ok 10000.
Proof. reflexivity. Qed.

Example stm_ex3 : StringTimeToMillis (str "01:02:03.456") = Ok 3723456.
Proof. reflexivity. Qed.

Example stm_ex4 : StringTimeToMillis (str "10:99") = Err ErrBadChapterStartTime.
Proof. reflexivity. Qed.

Example stm_ex5 : StringTimeToMillis (str "00:00:01.25") = Ok 1250.
Proof. reflexivity. Qed.

Example stm_ex6 : StringTimeToMillis (str "25:00:00") = Err ErrBadChapterStartTime.
Proof. reflexivity. Qed.

Example txt_ex :
  GetFFmpegChaptersTXT (30 * Second) test_chapters =
  (Some (ffmetadata_header
         ++ chapter_block 0 10000 (str "Chapter 1")
         ++ chapter_block 10000 20500 (str "Chapter 2")
         ++ chapter_block 20500 30000 (str "Chapter 3")), None).
Proof. vm_compute. reflexivity. Qed.

Example chap_ex :
  AddCHAPAndCTOC (30 * Second) [] test_chapters =
  ([(str "CHAP", chap_body (str "1") 0 10000 (str "Chapter 1"));
    (str "CHAP", chap_body (str "2") 10000 20500 (str "Chapter 2"));
    (str "CHAP", chap_body (str "3") 20500 30000 (str "Chapter 3"));
    (str "CTOC", str "toc" ++ [0; 1; 0; 3] ++ str "1" ++ [0] ++ str "2" ++ [0] ++ str "3" ++ [0])],
   None).
Proof. vm_compute. reflexivity. Qed.

Example meta_ex :
  WriteFFmpegMetadataFile ok_fs (30 * Second) test_track =
  WOk (str "/tmp/1*-ffmetadata.txt")
     (ffmetadata_header
      ++ str "title=Hello world" ++ NL ++ str "album=Galaxy" ++ NL
      ++ str "artist=Universe" ++ NL ++ str "genre=Podcast" ++ NL
      ++ str "track=5" ++ NL ++ str "copyright=Copyright 2024 Universe" ++ NL
      ++ str "date=2024-09-17" ++ NL
      ++ chapter_block 0 10000 (str "Chapter 1")
      ++ chapter_block 10000 20500 (str "Chapter 2")
      ++ chapter_block 20500 30000 (str "Chapter 3")).
Proof. vm_compute. reflexivity. Qed.

Example trim_ex :
  TrimSpace ([32; 9] ++ [194; 160] ++ str "a b" ++ [226; 128; 168; 32]) = str "a b".
Proof. vm_compute. reflexivity. Qed.

Example spec_format_ex :
  spec_matches_some_format (str "00:00:20.5") = true
  /\ spec_matches_some_format (str "0:00:10") = true
  /\ spec_matches_some_format (str "00:00:00.000") = true
  /\ spec_matches_some_format (str "00:00:1") = false.
Proof. vm_compute. repeat split. Qed.


Lemma to_byte_mod (x : Z) : to_byte x = x mod 256.
Proof.
  unfold to_byte. change 255 with (Z.ones 8).
  rewrite Z.land_ones by lia. reflexivity.
Qed.

Lemma fold_append_flat {A : Type} (f : A -> bytes) (l : list A) (acc : bytes) :
  fold_left (fun b x => b ++ f x) l acc = acc ++ flat_map f l.
Proof.
  revert acc; induction l as [|x l IH]; intros acc; simpl.
  - now rewrite app_nil_r.
  - rewrite IH, app_assoc. reflexivity.
Qed.

Lemma length_flat_map_pair (f g : Z -> Z) (l : list Z) :
  List.length (flat_map (fun r => [f r; g r]) l) = (2 * List.length l)%nat.
Proof. induction l as [|x l IH]; simpl; [reflexivity | rewrite IH; lia]. Qed.

Lemma TextFrame_flat (title : bytes) :
  TextFrame title = [1; 255; 254] ++ flat_map (fun r => [to_byte r; 0]) (runes title).
Proof.
  unfold TextFrame.
  exact (fold_append_flat (fun r => [to_byte r; 0]) (runes title) [1; 255; 254]).
Qed.

Lemma PutUint32_be32 (v : Z) : PutUint32 v = be32 v.
Proof.
  unfold PutUint32, be32. rewrite !to_byte_mod, !Z.shiftr_div_pow2 by lia.
  reflexivity.
Qed.

Lemma to_byte_shiftr_uint32 (v k : Z) :
  0 <= k <= 24 -> to_byte (Z.shiftr (to_uint32 v) k) = to_byte (Z.shiftr v k).
Proof.
  intros Hk. unfold to_byte, to_uint32.
  change (2 ^ 32) with (2 ^ 32). rewrite <- Z.land_ones by lia.
  rewrite Z.shiftr_land, <- Z.land_assoc.
  assert (H : Z.land (Z.shiftr (Z.ones 32) k) 255 = 255).
  { apply Z.bits_inj'. intros n Hn.
    rewrite Z.land_spec, Z.shiftr_spec, Z.testbit_ones by lia.
    destruct (Z.lt_ge_cases n 8) as [Hlt | Hge].
    - replace ((0 <=? n + k) && (n + k <? 32))%bool with true
        by (symmetry; apply andb_true_intro; split; [apply Z.leb_le | apply Z.ltb_lt]; lia).
      reflexivity.
    - change 255 with (Z.ones 8). rewrite Z.testbit_ones by lia.
      replace (n <? 8) with false by (symmetry; apply Z.ltb_ge; lia).
      rewrite !andb_false_r. reflexivity. }
  rewrite H. reflexivity.
Qed.

Lemma PutUint32_uint32 (v : Z) : PutUint32 (to_uint32 v) = PutUint32 v.
Proof.
  unfold PutUint32.
  rewrite !to_byte_shiftr_uint32 by lia.
  rewrite <- (Z.shiftr_0_r (to_uint32 v)), <- (Z.shiftr_0_r v) at 1.
  rewrite to_byte_shiftr_uint32 by lia. rewrite !Z.shiftr_0_r. reflexivity.
Qed.

Lemma nth_error_mapi_from {A B : Type} (f : nat -> A -> B) (l : list A) (i k : nat) :
  nth_error (mapi_from f i l) k = option_map (f (i + k)%nat) (nth_error l k).
Proof.
  revert i k; induction l as [|x l IH]; intros i k; destruct k as [|k]; simpl;
    try reflexivity.
  - now rewrite Nat.add_0_r.
  - rewrite IH. now rewrite Nat.add_succ_r.
Qed.

Lemma length_mapi_from {A B : Type} (f : nat -> A -> B) (l : list A) (i : nat) :
  List.length (mapi_from f i l) = List.length l.
Proof. revert i; induction l; intros i; simpl; auto. Qed.

Lemma map_mapi_from {A B C : Type} (g : B -> C) (f : nat -> A -> B) (l : list A) (i : nat) :
  map g (mapi_from f i l) = mapi_from (fun k x => g (f k x)) i l.
Proof. revert i; induction l; intros i; simpl; f_equal; auto. Qed.

Lemma mapi_from_seq {A B : Type} (f : nat -> B) (l : list A) (i : nat) :
  mapi_from (fun k _ => f k) i l = map f (seq i (List.length l)).
Proof. revert i; induction l; intros i; simpl; f_equal; auto. Qed.

Lemma chap_loop_eq (chs : list Chapter) n starts millis i tag ids :
  chap_loop n starts millis i chs tag ids =
  (tag ++ mapi_from (chap_frame n starts millis) i chs,
   ids ++ mapi_from chapter_id i chs).
Proof.
  revert i tag ids; induction chs as [|ch chs IH]; intros i tag ids; simpl.
  - now rewrite !app_nil_r.
  - rewrite IH. unfold AddFrame, chap_frame, chapter_id.
    now rewrite <- !app_assoc.
Qed.

Lemma ctoc_body_flat (ids : list bytes) :
  ctoc_body ids =
  str "toc" ++ [0] ++ [1; 0] ++ [Z.of_nat (List.length ids) mod 256]
  ++ flat_map (fun id => id ++ [0]) ids.
Proof.
  unfold ctoc_body. rewrite (fold_append_flat (fun id => id ++ [0])).
  rewrite to_byte_mod. now rewrite <- !app_assoc.
Qed.

Lemma StringTimeToMillis_err (t : bytes) (e : err) :
  StringTimeToMillis t = Err e -> e = ErrBadChapterStartTime.
Proof.
  unfold StringTimeToMillis, StringTimeToTime.
  destruct (Parse layout_000 t), (Parse layout_0 t), (Parse layout_s t);
    intros H; inversion H; reflexivity.
Qed.

Lemma parse_starts_err (chs : list Chapter) (e : err) :
  parse_starts chs = Err e -> e = ErrBadChapterStartTime.
Proof.
  induction chs as [|ch chs IH]; simpl; [discriminate|].
  destruct (StringTimeToMillis (Start ch)) eqn:E.
  - destruct (parse_starts chs); intros H; inversion H; subst; auto.
  - intros H; inversion H; subst. eapply StringTimeToMillis_err; eauto.
Qed.

Lemma parse_starts_ok (chs : list Chapter) :
  (forall ch, In ch chs -> exists m, StringTimeToMillis (Start ch) = Ok m) ->
  exists starts, parse_starts chs = Ok starts.
Proof.
  induction chs as [|ch chs IH]; intros H; simpl; [eauto|].
  destruct (H ch (or_introl eq_refl)) as [m Hm]. rewrite Hm.
  destruct IH as [ms Hms]; [intros c Hc; apply H; now right|].
  rewrite Hms. eauto.
Qed.

Lemma parse_starts_nth (chs : list Chapter) (starts : list Z) :
  parse_starts chs = Ok starts ->
  List.length starts = List.length chs /\
  forall k ch, nth_error chs k = Some ch ->
    StringTimeToMillis (Start ch) = Ok (nth k starts 0).
Proof.
  revert starts; induction chs as [|ch chs IH]; intros starts; simpl.
  - intros H; inversion H; subst. split; [reflexivity|].
    intros k c Hk; destruct k; discriminate.
  - destruct (StringTimeToMillis (Start ch)) as [m|e] eqn:E; [|discriminate].
    destruct (parse_starts chs) as [ms|e] eqn:E2; [|discriminate].
    intros H; inversion H; subst.
    destruct (IH ms eq_refl) as [Hl Hn]. split; [simpl; now rewrite Hl|].
    intros [|k] c Hk; simpl in Hk.
    + inversion Hk; subst; exact E.
    + simpl. now apply Hn.
Qed.

Lemma parse_starts_fail (chs : list Chapter) (ch : Chapter) (e : err) :
  In ch chs -> StringTimeToMillis (Start ch) = Err e ->
  parse_starts chs = Err ErrBadChapterStartTime.
Proof.
  induction chs as [|c chs IH]; intros Hin He; [destruct Hin|].
  simpl. destruct Hin as [<- | Hin].
  - rewrite He. f_equal. eapply StringTimeToMillis_err; eauto.
  - destruct (StringTimeToMillis (Start c)) eqn:Ec;
      [|f_equal; eapply StringTimeToMillis_err; eauto].
    rewrite (IH Hin He). reflexivity.
Qed.

(** The millisecond length computed from [duration.TimeDuration]. *)
Lemma AddCHAPAndCTOC_ok duration tag chapters starts :
  chapters <> [] -> duration <> 0 -> parse_starts chapters = Ok starts ->
  AddCHAPAndCTOC duration tag chapters =
  (tag ++ mapi_from (chap_frame (List.length chapters) starts
                       (to_uint32 (Z.quot duration Millisecond))) 0 chapters
       ++ [(str "CTOC", ctoc_body (mapi_from chapter_id 0 chapters))], None).
Proof.
  intros Hne Hd Hp. unfold AddCHAPAndCTOC.
  replace (Nat.eqb (List.length chapters) 0) with false
    by (destruct chapters; [congruence | reflexivity]).
  replace (duration =? 0) with false by (symmetry; now apply Z.eqb_neq).
  rewrite Hp, chap_loop_eq. unfold AddFrame. simpl.
  now rewrite <- app_assoc.
Qed.

Lemma chap_body_prefix id start end_ title :
  exists rest, chap_body id start end_ title = id ++ [0] ++ rest.
Proof. unfold chap_body. rewrite app_nil_l, <- !app_assoc. eexists. reflexivity. Qed.

Lemma GetFFmpegChaptersTXT_nil duration :
  GetFFmpegChaptersTXT duration [] = (None, None).
Proof. reflexivity. Qed.

(** C7: TextFrame returns the marker byte 0x01, the byte-order mark
    0xFF 0xFE, then for every rune of the input its low byte followed by a
    zero byte; its length is 3 + 2 * (number of runes). *)
Theorem TextFrame_layout (title : bytes) :
  TextFrame title = [1; 255; 254] ++ flat_map (fun r => [r mod 256; 0]) (runes title)
  /\ List.length (TextFrame title) = (3 + 2 * List.length (runes title))%nat.
Proof.
  rewrite TextFrame_flat.
  assert (E : flat_map (fun r => [to_byte r; 0]) (runes title)
              = flat_map (fun r => [r mod 256; 0]) (runes title)).
  { apply flat_map_ext. intros r. now rewrite to_byte_mod. }
  rewrite E. split; [reflexivity|].
  rewrite length_app, (length_flat_map_pair (fun r => r mod 256) (fun _ => 0)).
  reflexivity.
Qed.

Lemma be32_value_be32 (v : Z) :
  0 <= v < 2 ^ 32 ->
  be32_value (v / 2 ^ 24 mod 256) (v / 2 ^ 16 mod 256) (v / 2 ^ 8 mod 256) (v mod 256) = v.
Proof.
  intros Hv. unfold be32_value.
  pose proof (Z.div_mod v 256 ltac:(lia)) as E0.
  pose proof (Z.mod_pos_bound v 256 ltac:(lia)).
  pose proof (Z.div_mod (v / 256) 256 ltac:(lia)) as E1.
  pose proof (Z.mod_pos_bound (v / 256) 256 ltac:(lia)).
  pose proof (Z.div_mod (v / 256 / 256) 256 ltac:(lia)) as E2.
  pose proof (Z.mod_pos_bound (v / 256 / 256) 256 ltac:(lia)).
  assert (H16 : v / 2 ^ 16 = v / 256 / 256) by (rewrite Z.div_div by lia; reflexivity).
  assert (H24 : v / 2 ^ 24 = v / 256 / 256 / 256) by (rewrite !Z.div_div by lia; reflexivity).
  assert (H8 : v / 2 ^ 8 = v / 256) by reflexivity.
  assert (Hlt : v / 256 / 256 / 256 < 256).
  { rewrite <- H24. apply Z.div_lt_upper_bound; lia. }
  assert (Hge : 0 <= v / 256 / 256 / 256) by (rewrite <- H24; apply Z.div_pos; lia).
  rewrite H16, H24, H8. rewrite (Z.mod_small (v / 256 / 256 / 256)) by lia.
  lia.
Qed.

Lemma read_u32_be32 (v : Z) (r : bytes) :
  read_u32 (be32 v ++ r) = Some (to_uint32 v, r).
Proof.
  rewrite <- PutUint32_be32, <- PutUint32_uint32, PutUint32_be32. unfold be32, read_u32. cbn [app].
  rewrite be32_value_be32; [reflexivity|]. unfold to_uint32. apply Z.mod_pos_bound. lia.
Qed.

Lemma runes_ascii_repeat (c : Z) (n : nat) :
  0 <= c < 128 -> runes (repeat c n) = repeat c n.
Proof.
  intros Hc. induction n as [|n IH]; [reflexivity|].
  cbn [repeat runes]. replace (c <? 128) with true by (symmetry; apply Z.ltb_lt; lia).
  now rewrite IH.
Qed.

Lemma AddCHAPAndCTOC_single (title : bytes) :
  nth_error (fst (AddCHAPAndCTOC Second [] [mkChapter title (str "00:00:00")])) 0
  = Some (str "CHAP", chap_body (str "1") 0 1000 title).
Proof. reflexivity. Qed.

(** C1 (counterexample): a title of 2^31 ASCII runes has a TextFrame of
    2^32 + 3 bytes, yet the length field of its TIT2 sub-record holds
    [uint32(2^32 + 3)] = 3. *)
Lemma chap_size_wraps :
  let title := repeat 65 (Z.to_nat (2 ^ 31)) in
  nth_error (fst (AddCHAPAndCTOC Second [] [mkChapter title (str "00:00:00")])) 0
  = Some (str "CHAP",
          str "1" ++ [0] ++ be32 0 ++ be32 1000 ++ [255; 255; 255; 255] ++ [255; 255; 255; 255]
          ++ str "TIT2" ++ [0; 0; 0; 3] ++ [0; 0] ++ TextFrame title)
  /\ Z.of_nat (List.length (TextFrame title)) = 2 ^ 32 + 3.
Proof.
  intros title.
  assert (HL : Z.of_nat (List.length (TextFrame title)) = 2 ^ 32 + 3).
  { rewrite TextFrame_flat, length_app, length_flat_map_pair.
    unfold title. rewrite runes_ascii_repeat by lia. rewrite repeat_length.
    rewrite Nat2Z.inj_add, Nat2Z.inj_mul, Z2Nat.id by lia. reflexivity. }
  split; [|exact HL].
  rewrite AddCHAPAndCTOC_single. unfold chap_body. cbv zeta.
  rewrite PutUint32_uint32, !PutUint32_be32, HL.
  change (be32 (2 ^ 32 + 3)) with [0; 0; 0; 3].
  rewrite app_nil_l, <- !app_assoc. reflexivity.
Qed.

(** C1 (amended): when AddCHAPAndCTOC succeeds, the frame it adds for
    chapter [k] is a CHAP frame whose body is the element id, NUL, the
    start and end milliseconds as 4 big-endian bytes each, 0xFFFFFFFF
    twice, then "TIT2", the length of the encoded title as 4 big-endian
    bytes, two zero bytes and the encoded title ([spec_chap_body]).  The
    length is taken modulo 2^32: the 4 bytes [be32 n] read back as
    [n mod 2^32], which is [n] only when [n < 2^32]. *)
Theorem chap_record_layout duration tag chapters starts :
  chapters <> [] -> duration <> 0 -> parse_starts chapters = Ok starts ->
  (forall k ch, nth_error chapters k = Some ch ->
   nth_error (fst (AddCHAPAndCTOC duration tag chapters)) (List.length tag + k) =
   Some (str "CHAP",
         spec_chap_body
           (mkInterval (Itoa (Z.of_nat (k + 1))) (nth k starts 0)
              (chapter_end (List.length chapters) starts
                 (to_uint32 (Z.quot duration Millisecond)) k)
              (Title ch))))
  /\ (forall title r,
        read_u32 (be32 (Z.of_nat (List.length (TextFrame title))) ++ r)
        = Some (Z.of_nat (List.length (TextFrame title)) mod 2 ^ 32, r)).
Proof.
  intros Hne Hd Hp. split; [|intros title r; apply read_u32_be32].
  intros k ch Hk.
  rewrite (AddCHAPAndCTOC_ok duration tag chapters starts Hne Hd Hp). simpl fst.
  assert (Hlt : (k < List.length chapters)%nat)
    by (apply nth_error_Some; congruence).
  rewrite nth_error_app2 by lia. replace (List.length tag + k - List.length tag)%nat with k by lia.
  rewrite nth_error_app1 by (rewrite length_mapi_from; exact Hlt).
  rewrite nth_error_mapi_from, Hk. simpl option_map. unfold chap_frame.
  do 2 f_equal. unfold chap_body, spec_chap_body. simpl elementID.
  rewrite PutUint32_uint32, !PutUint32_be32. simpl.
  now rewrite <- !app_assoc.
Qed.

Lemma chap_record_layout_witness :
  nth_error (fst (AddCHAPAndCTOC (30 * Second) [] test_chapters)) (0 + 1) =
  Some (str "CHAP",
        spec_chap_body
          (mkInterval (Itoa (Z.of_nat (1 + 1))) (nth 1 [0; 10000; 20500] 0)
             (chapter_end 3 [0; 10000; 20500]
                (to_uint32 (Z.quot (30 * Second) Millisecond)) 1)
             (str "Chapter 2"))).
Proof.
  exact (proj1 (chap_record_layout (30 * Second) [] test_chapters [0; 10000; 20500]
           ltac:(discriminate) ltac:(vm_compute; discriminate) ltac:(vm_compute; reflexivity))
           1%nat (mkChapter (str "Chapter 2") (str "00:00:10")) ltac:(reflexivity)).
Defined.

(** C3 (counterexample): a duration of 2^32 ms is positive, yet the last
    chapter's end is 0: [uint32(duration / time.Millisecond)] wraps. *)
Lemma chapter_end_wraps :
  0 < 2 ^ 32 * Millisecond /\
  AddCHAPAndCTOC (2 ^ 32 * Millisecond) [] [mkChapter (str "a") (str "00:00:00")] =
  ([(str "CHAP", chap_body (str "1") 0 0 (str "a"));
    (str "CTOC", ctoc_body [str "1"])], None).
Proof. split; [unfold Millisecond; lia | vm_compute; reflexivity]. Qed.

(** C3 (amended): for a non-empty chapter list whose starts all parse and a
    positive duration D, AddCHAPAndCTOC succeeds and emits one CHAP frame
    per interval, in input order, then the CTOC frame; interval [k] has
    element id [Itoa(k+1)] and the parsed start of chapter [k]; its end is
    the next interval's start, and the last end is [uint32(D / 1ms)], i.e.
    D itself when D is a whole number of milliseconds below 2^32. *)
Theorem chapter_intervals duration tag chapters :
  chapters <> [] -> 0 < duration ->
  (forall ch, In ch chapters -> exists m, StringTimeToMillis (Start ch) = Ok m) ->
  exists ivs : list Interval,
    AddCHAPAndCTOC duration tag chapters =
      (tag ++ map (fun iv => (str "CHAP", chap_body (elementID iv) (startMillis iv)
                                            (endMillis iv) (ititle iv))) ivs
           ++ [(str "CTOC", ctoc_body (map elementID ivs))], None)
    /\ List.length ivs = List.length chapters
    /\ (forall k iv ch, nth_error ivs k = Some iv -> nth_error chapters k = Some ch ->
          elementID iv = Itoa (Z.of_nat (k + 1)) /\ ititle iv = Title ch
          /\ StringTimeToMillis (Start ch) = Ok (startMillis iv))
    /\ (forall k iv iv', nth_error ivs k = Some iv -> nth_error ivs (S k) = Some iv' ->
          endMillis iv = startMillis iv')
    /\ (forall iv, nth_error ivs (List.length chapters - 1) = Some iv ->
          endMillis iv = to_uint32 (Z.quot duration Millisecond)
          /\ (forall D, duration = D * Millisecond -> 0 <= D < 2 ^ 32 -> endMillis iv = D)).
Proof.
  intros Hne Hpos Hall.
  destruct (parse_starts_ok chapters Hall) as [starts Hp].
  destruct (parse_starts_nth chapters starts Hp) as [Hlen Hnth].
  set (n := List.length chapters).
  set (millis := to_uint32 (Z.quot duration Millisecond)).
  exists (intervals n starts millis chapters).
  assert (Hiv : forall k iv, nth_error (intervals n starts millis chapters) k = Some iv ->
            exists ch, nth_error chapters k = Some ch /\
              iv = mkInterval (Itoa (Z.of_nat (k + 1))) (nth k starts 0)
                     (chapter_end n starts millis k) (Title ch)).
  { intros k iv H. unfold intervals in H. rewrite nth_error_mapi_from in H.
    destruct (nth_error chapters k) as [ch|] eqn:E; [|discriminate].
    inversion H; subst. eauto. }
  split; [|split; [|split; [|split]]].
  - rewrite (AddCHAPAndCTOC_ok duration tag chapters starts Hne ltac:(lia) Hp).
    unfold intervals. rewrite !map_mapi_from. reflexivity.
  - unfold intervals. apply length_mapi_from.
  - intros k iv ch H Hk. destruct (Hiv k iv H) as [ch' [Hk' ->]].
    rewrite Hk in Hk'. inversion Hk'; subst. simpl.
    split; [reflexivity | split; [reflexivity | now apply Hnth]].
  - intros k iv iv' H H'.
    destruct (Hiv k iv H) as [ch [Hk ->]]. destruct (Hiv (S k) iv' H') as [ch' [Hk' ->]].
    simpl. unfold chapter_end.
    assert (Hlt : (S k < n)%nat) by (apply nth_error_Some; congruence).
    replace (Nat.ltb k (n - 1)) with true by (symmetry; apply Nat.ltb_lt; lia).
    reflexivity.
  - intros iv H. destruct (Hiv _ iv H) as [ch [Hk ->]]. simpl. unfold chapter_end.
    replace (Nat.ltb (n - 1) (n - 1)) with false by (symmetry; apply Nat.ltb_ge; lia).
    split; [reflexivity|].
    intros D -> HD. unfold millis, to_uint32, Millisecond.
    rewrite Z.quot_mul by lia. apply Z.mod_small. exact HD.
Qed.

Lemma chapter_intervals_witness :
  exists ivs : list Interval,
    AddCHAPAndCTOC (30 * Second) [] test_chapters =
      ([] ++ map (fun iv => (str "CHAP", chap_body (elementID iv) (startMillis iv)
                                           (endMillis iv) (ititle iv))) ivs
          ++ [(str "CTOC", ctoc_body (map elementID ivs))], None)
    /\ List.length ivs = List.length test_chapters
    /\ (forall k iv ch, nth_error ivs k = Some iv -> nth_error test_chapters k = Some ch ->
          elementID iv = Itoa (Z.of_nat (k + 1)) /\ ititle iv = Title ch
          /\ StringTimeToMillis (Start ch) = Ok (startMillis iv))
    /\ (forall k iv iv', nth_error ivs k = Some iv -> nth_error ivs (S k) = Some iv' ->
          endMillis iv = startMillis iv')
    /\ (forall iv, nth_error ivs (List.length test_chapters - 1) = Some iv ->
          endMillis iv = to_uint32 (Z.quot (30 * Second) Millisecond)
          /\ (forall D, 30 * Second = D * Millisecond -> 0 <= D < 2 ^ 32 -> endMillis iv = D)).
Proof.
  apply (chapter_intervals (30 * Second) [] test_chapters).
  - discriminate.
  - vm_compute. reflexivity.
  - intros ch [<- | [<- | [<- | []]]]; eexists; vm_compute; reflexivity.
Defined.

(** C6 (counterexample): with 256 chapters the count byte of the CTOC body
    (offset 6, after "toc", NUL and the two flag bytes) is 0. *)
Lemma ctoc_count_wraps :
  nth_error (snd (last (fst (AddCHAPAndCTOC Second []
                    (repeat (mkChapter (str "c") (str "00:00:00")) 256))) ([], []))) 6
  = Some 0.
Proof. vm_compute. reflexivity. Qed.

(** C6 (amended): AddCHAPAndCTOC adds no frame for an empty chapter list;
    when it succeeds on a non-empty list, its last frame is the CTOC frame
    with body "toc", NUL, 0x01 0x00, the number of chapters modulo 256 in
    one byte, then the element ids "1".."N", each NUL-terminated, and the
    CHAP frames before it carry the same ids in the same order. *)
Theorem ctoc_record_layout duration tag chapters :
  AddCHAPAndCTOC duration tag [] = (tag, None)
  /\ (forall starts, chapters <> [] -> duration <> 0 -> parse_starts chapters = Ok starts ->
      exists chaps,
        fst (AddCHAPAndCTOC duration tag chapters) =
          tag ++ chaps
              ++ [(str "CTOC",
                   str "toc" ++ [0] ++ [1; 0] ++ [Z.of_nat (List.length chapters) mod 256]
                   ++ flat_map (fun id => id ++ [0])
                        (map (fun k => Itoa (Z.of_nat (k + 1))) (seq 0 (List.length chapters))))]
        /\ List.length chaps = List.length chapters
        /\ (forall k, (k < List.length chapters)%nat ->
              exists rest, nth_error chaps k =
                Some (str "CHAP", Itoa (Z.of_nat (k + 1)) ++ [0] ++ rest))).
Proof.
  split; [reflexivity|].
  intros starts Hne Hd Hp.
  set (millis := to_uint32 (Z.quot duration Millisecond)).
  exists (mapi_from (chap_frame (List.length chapters) starts millis) 0 chapters).
  rewrite (AddCHAPAndCTOC_ok duration tag chapters starts Hne Hd Hp). simpl fst.
  split; [|split].
  - rewrite ctoc_body_flat, length_mapi_from.
    unfold chapter_id. rewrite (mapi_from_seq (fun k => Itoa (Z.of_nat (k + 1)))).
    reflexivity.
  - apply length_mapi_from.
  - intros k Hk. rewrite nth_error_mapi_from, Nat.add_0_l.
    destruct (nth_error chapters k) as [ch|] eqn:E.
    + destruct (chap_body_prefix (Itoa (Z.of_nat (k + 1))) (nth k starts 0)
                  (chapter_end (List.length chapters) starts millis k) (Title ch)) as [rest Hr].
      exists rest. cbn [option_map]. unfold chap_frame. rewrite Hr. reflexivity.
    + apply nth_error_None in E. lia.
Qed.

Lemma ctoc_record_layout_witness :
  exists chaps,
    fst (AddCHAPAndCTOC (30 * Second) [] test_chapters) =
      [] ++ chaps
         ++ [(str "CTOC",
              str "toc" ++ [0] ++ [1; 0] ++ [Z.of_nat (List.length test_chapters) mod 256]
              ++ flat_map (fun id => id ++ [0])
                   (map (fun k => Itoa (Z.of_nat (k + 1))) (seq 0 (List.length test_chapters))))]
    /\ List.length chaps = List.length test_chapters
    /\ (forall k, (k < List.length test_chapters)%nat ->
          exists rest, nth_error chaps k =
            Some (str "CHAP", Itoa (Z.of_nat (k + 1)) ++ [0] ++ rest)).
Proof.
  apply (proj2 (ctoc_record_layout (30 * Second) [] test_chapters) [0; 10000; 20500]).
  - discriminate.
  - vm_compute. discriminate.
  - vm_compute. reflexivity.
Defined.

Lemma AddCHAPAndCTOC_cases duration tag chapters :
  AddCHAPAndCTOC duration tag chapters = (tag, None) /\ chapters = []
  \/ AddCHAPAndCTOC duration tag chapters = (tag, Some ErrZeroDuration)
     /\ chapters <> [] /\ duration = 0
  \/ AddCHAPAndCTOC duration tag chapters = (tag, Some ErrBadChapterStartTime)
     /\ chapters <> [] /\ duration <> 0
     /\ parse_starts chapters = Err ErrBadChapterStartTime
  \/ exists starts, chapters <> [] /\ duration <> 0 /\ parse_starts chapters = Ok starts
     /\ snd (AddCHAPAndCTOC duration tag chapters) = None.
Proof.
  destruct chapters as [|c cs]; [left; split; reflexivity|].
  right. destruct (Z.eq_dec duration 0) as [->|Hd].
  - left. split; [reflexivity | split; [discriminate | reflexivity]].
  - right. destruct (parse_starts (c :: cs)) as [starts|e] eqn:Hp.
    + right. exists starts. split; [discriminate | split; [exact Hd | split; [reflexivity|]]].
      rewrite (AddCHAPAndCTOC_ok duration tag (c :: cs) starts ltac:(discriminate) Hd Hp).
      reflexivity.
    + left. pose proof (parse_starts_err _ _ Hp); subst e.
      unfold AddCHAPAndCTOC. simpl Nat.eqb. cbv iota.
      replace (duration =? 0) with false by (symmetry; now apply Z.eqb_neq).
      rewrite Hp. split; [reflexivity | split; [discriminate | split; [exact Hd | reflexivity]]].
Qed.

Lemma GetFFmpegChaptersTXT_cases duration chapters :
  GetFFmpegChaptersTXT duration chapters = (None, None) /\ chapters = []
  \/ GetFFmpegChaptersTXT duration chapters = (None, Some ErrZeroDuration)
     /\ chapters <> [] /\ duration = 0
  \/ GetFFmpegChaptersTXT duration chapters = (None, Some ErrBadChapterStartTime)
     /\ chapters <> [] /\ duration <> 0
     /\ parse_starts chapters = Err ErrBadChapterStartTime
  \/ exists starts, chapters <> [] /\ duration <> 0 /\ parse_starts chapters = Ok starts
     /\ GetFFmpegChaptersTXT duration chapters =
        (Some (txt_loop (List.length chapters) starts
                 (to_uint32 (Z.quot duration Millisecond)) 0 chapters ffmetadata_header), None).
Proof.
  destruct chapters as [|c cs]; [left; split; reflexivity|].
  right. unfold GetFFmpegChaptersTXT. simpl Nat.eqb. cbv iota.
  destruct (Z.eq_dec duration 0) as [->|Hd].
  - left. split; [reflexivity | split; [discriminate | reflexivity]].
  - right. replace (duration =? 0) with false by (symmetry; now apply Z.eqb_neq).
    destruct (parse_starts (c :: cs)) as [starts|e] eqn:Hp.
    + right. exists starts. repeat split; try discriminate; auto.
    + left. pose proof (parse_starts_err _ _ Hp); subst e.
      repeat split; try discriminate; auto.
Qed.

(** C4: AddCHAPAndCTOC and GetFFmpegChaptersTXT return ErrZeroDuration
    exactly when the chapter list is non-empty and the duration is zero;
    for an empty chapter list they return nil and add/produce nothing,
    whatever the duration. *)
Theorem zero_duration_iff duration tag chapters :
  (snd (AddCHAPAndCTOC duration tag chapters) = Some ErrZeroDuration
   <-> chapters <> [] /\ duration = 0)
  /\ (snd (GetFFmpegChaptersTXT duration chapters) = Some ErrZeroDuration
      <-> chapters <> [] /\ duration = 0)
  /\ AddCHAPAndCTOC duration tag [] = (tag, None)
  /\ GetFFmpegChaptersTXT duration [] = (None, None).
Proof.
  split; [|split; [|split; reflexivity]].
  - destruct (AddCHAPAndCTOC_cases duration tag chapters)
      as [[E H] | [[E H] | [[E H] | [starts [H1 [H2 [H3 E]]]]]]];
      rewrite ?E; simpl; split; intros Hx; try tauto; try discriminate;
      try (destruct Hx; congruence).

  - destruct (GetFFmpegChaptersTXT_cases duration chapters)
      as [[E H] | [[E H] | [[E H] | [starts [H1 [H2 [H3 E]]]]]]];
      rewrite E; simpl; split; intros Hx; try tauto; try discriminate;
      destruct Hx; congruence.
Qed.

(** C5 (counterexample): with a zero duration a malformed start is never
    parsed; both functions report ErrZeroDuration. *)
Lemma malformed_zero_duration :
  StringTimeToMillis (str "10:99") = Err ErrBadChapterStartTime
  /\ AddCHAPAndCTOC 0 [] [mkChapter (str "a") (str "10:99")] = ([], Some ErrZeroDuration)
  /\ GetFFmpegChaptersTXT 0 [mkChapter (str "a") (str "10:99")] = (None, Some ErrZeroDuration).
Proof. vm_compute. repeat split. Qed.

(** C5 (amended): with a non-zero duration, a chapter whose start does not
    parse makes both functions return ErrBadChapterStartTime, with no frame
    added and no output; more generally no error leaves a frame in the tag
    or returns any chapter text.  With a zero duration and a non-empty
    chapter list both return ErrZeroDuration, whatever the start strings
    (malformed ones included). *)
Theorem malformed_all_or_nothing duration tag chapters :
  (forall ch e, duration <> 0 -> In ch chapters -> StringTimeToMillis (Start ch) = Err e ->
     AddCHAPAndCTOC duration tag chapters = (tag, Some ErrBadChapterStartTime)
     /\ GetFFmpegChaptersTXT duration chapters = (None, Some ErrBadChapterStartTime))
  /\ (forall tag' e, AddCHAPAndCTOC duration tag chapters = (tag', Some e) -> tag' = tag)
  /\ (forall out e, GetFFmpegChaptersTXT duration chapters = (out, Some e) -> out = None)
  /\ (chapters <> [] -> duration = 0 ->
      AddCHAPAndCTOC duration tag chapters = (tag, Some ErrZeroDuration)
      /\ GetFFmpegChaptersTXT duration chapters = (None, Some ErrZeroDuration)).
Proof.
  split; [|split; [|split]].
  - intros ch e Hd Hin He.
    pose proof (parse_starts_fail chapters ch e Hin He) as Hp.
    assert (Hne : chapters <> []) by (intros ->; destruct Hin).
    destruct (AddCHAPAndCTOC_cases duration tag chapters)
      as [[E H] | [[E H] | [[E H] | [starts [H1 [H2 [H3 E]]]]]]];
      try tauto; try congruence.
    destruct (GetFFmpegChaptersTXT_cases duration chapters)
      as [[E' H'] | [[E' H'] | [[E' H'] | [starts [H1 [H2 [H3 E']]]]]]];
      try tauto; try congruence.
  - intros tag' e Ht.
    destruct (AddCHAPAndCTOC_cases duration tag chapters)
      as [[E H] | [[E H] | [[E H] | [starts [H1 [H2 [H3 E]]]]]]];
      rewrite Ht in E; try congruence.
    simpl in E. discriminate.
  - intros out e Ht.
    destruct (GetFFmpegChaptersTXT_cases duration chapters)
      as [[E H] | [[E H] | [[E H] | [starts [H1 [H2 [H3 E]]]]]]];
      rewrite Ht in E; congruence.
  - intros Hne ->. destruct chapters as [|c cs]; [congruence|].
    split; reflexivity.
Qed.

Lemma malformed_all_or_nothing_witness :
  (AddCHAPAndCTOC Second [] [mkChapter (str "a") (str "10:99")] = ([], Some ErrBadChapterStartTime)
   /\ GetFFmpegChaptersTXT Second [mkChapter (str "a") (str "10:99")]
      = (None, Some ErrBadChapterStartTime))
  /\ (AddCHAPAndCTOC 0 [] [mkChapter (str "a") (str "10:99")] = ([], Some ErrZeroDuration)
      /\ GetFFmpegChaptersTXT 0 [mkChapter (str "a") (str "10:99")]
         = (None, Some ErrZeroDuration)).
Proof.
  split.
  - apply (proj1 (malformed_all_or_nothing Second [] [mkChapter (str "a") (str "10:99")])
             (mkChapter (str "a") (str "10:99")) ErrBadChapterStartTime).
    + vm_compute. discriminate.
    + left. reflexivity.
    + vm_compute. reflexivity.
  - apply (proj2 (proj2 (proj2 (malformed_all_or_nothing 0 [] [mkChapter (str "a") (str "10:99")])))).
    + discriminate.
    + reflexivity.
Defined.

Lemma zero_duration_iff_witness :
  snd (AddCHAPAndCTOC 0 [] test_chapters) = Some ErrZeroDuration
  /\ snd (GetFFmpegChaptersTXT 0 test_chapters) = Some ErrZeroDuration.
Proof.
  split.
  - apply (proj2 (proj1 (zero_duration_iff 0 [] test_chapters))).
    split; [discriminate | reflexivity].
  - apply (proj2 (proj1 (proj2 (zero_duration_iff 0 [] test_chapters)))).
    split; [discriminate | reflexivity].
Defined.

Lemma getnum_range (s : bytes) (f : bool) (n : Z) (v : bytes) :
  getnum s f = Some (n, v) -> 0 <= n <= 99.
Proof.
  unfold getnum, isDigitB. destruct s as [|c0 s1]; [discriminate|].
  destruct ((48 <=? c0) && (c0 <=? 57)) eqn:H0; simpl; [|discriminate].
  apply andb_prop in H0; destruct H0 as [H0a H0b]; apply Z.leb_le in H0a, H0b.
  destruct s1 as [|c1 s2].
  - destruct f; intros H; inversion H; lia.
  - destruct ((48 <=? c1) && (c1 <=? 57)) eqn:H1.
    + apply andb_prop in H1; destruct H1 as [H1a H1b]; apply Z.leb_le in H1a, H1b.
      intros H; inversion H; lia.
    + destruct f; intros H; inversion H; lia.
Qed.

Lemma leadingInt_acc_bound (s : bytes) (x q : Z) (rem : bytes) :
  0 <= x -> leadingInt_acc s x = Some (q, rem) ->
  0 <= q < (x + 1) * 10 ^ Z.of_nat (List.length s).
Proof.
  revert x; induction s as [|c s IH]; intros x Hx.
  - simpl. intros H; inversion H; subst. simpl. lia.
  - assert (E : Z.of_nat (List.length (c :: s)) = Z.of_nat (List.length s) + 1)
      by (cbn [List.length]; lia).
    rewrite E, Z.pow_add_r by lia. cbn [leadingInt_acc].
    unfold isDigitB. destruct ((48 <=? c) && (c <=? 57)) eqn:Hc.
    + apply andb_prop in Hc; destruct Hc as [Ha Hb]; apply Z.leb_le in Ha, Hb.
      destruct (x >? 2 ^ 63 / 10); [discriminate|].
      destruct (x * 10 + (c - 48) >? 2 ^ 63); [discriminate|].
      intros H. apply IH in H; [|lia].
      pose proof (Z.pow_pos_nonneg 10 (Z.of_nat (List.length s)) ltac:(lia) ltac:(lia)).
      nia.
    + intros H; inversion H; subst.
      pose proof (Z.pow_pos_nonneg 10 (Z.of_nat (List.length s)) ltac:(lia) ltac:(lia)).
      nia.
Qed.

Lemma atoi_bound (s : bytes) (n : Z) :
  atoi s = Some n -> - 10 ^ Z.of_nat (List.length s) < n < 10 ^ Z.of_nat (List.length s).
Proof.
  unfold atoi, leadingInt.
  assert (Hm : forall s', (List.length s' <= List.length s)%nat ->
            forall q, leadingInt_acc s' 0 = Some (q, []) ->
            0 <= q < 10 ^ Z.of_nat (List.length s)).
  { intros s' Hl q Hq. apply leadingInt_acc_bound in Hq; [|lia].
    assert (10 ^ Z.of_nat (List.length s') <= 10 ^ Z.of_nat (List.length s))
      by (apply Z.pow_le_mono_r; lia).
    lia. }
  destruct s as [|c s'].
  - simpl. intros H; inversion H; subst; simpl; lia.
  - destruct ((c =? 45) || (c =? 43)).
    + destruct (leadingInt_acc s' 0) as [[q [|r rs]]|] eqn:E; try discriminate.
      pose proof (Hm s' ltac:(simpl; lia) q E) as Hq.
      intros Hn; inversion Hn; subst. destruct (c =? 45); lia.
    + destruct (leadingInt_acc (c :: s') 0) as [[q [|r rs]]|] eqn:E; try discriminate.
      pose proof (Hm (c :: s') ltac:(lia) q E) as Hq.
      intros Hn; inversion Hn; subst. lia.
Qed.

Lemma parseNanoseconds_range (v : bytes) (nb : nat) (ns : Z) :
  parseNanoseconds v nb = Some ns -> 0 <= ns < 10 ^ 9.
Proof.
  unfold parseNanoseconds. destruct v as [|c v']; [discriminate|].
  destruct (negb (commaOrPeriod c)); [discriminate|].
  destruct (atoi (firstn (Nat.min nb 10 - 1) v')) as [x|] eqn:E; [|discriminate].
  apply atoi_bound in E. rewrite length_firstn in E.
  destruct (x <? 0) eqn:Hx; [discriminate|]. apply Z.ltb_ge in Hx.
  intros H; inversion H; subst.
  assert (Hle : (Nat.min nb 10 <= 10)%nat) by lia.
  remember (Nat.min nb 10) as m.
  assert (Hl : (Nat.min (m - 1) (List.length v') <= m - 1)%nat) by lia.
  assert (Hp : 10 ^ Z.of_nat (Nat.min (m - 1) (List.length v'))
               <= 10 ^ Z.of_nat (m - 1)) by (apply Z.pow_le_mono_r; lia).
  assert (Hc : x < 10 ^ Z.of_nat (m - 1)) by lia.
  clear - Hle Hc Hx.
  destruct m as [|[|[|[|[|[|[|[|[|[|[|m]]]]]]]]]]]; simpl in *; lia.
Qed.

Lemma parse_chunks_range (layout : list chunk) :
  forall value t t', in_range t -> parse_chunks layout value t = Some t' -> in_range t'.
Proof.
  induction layout as [|c rest IH]; intros value t t' Ht.
  - destruct value; cbn [parse_chunks]; intros H; inversion H; subst; auto.
  - destruct c; cbn [parse_chunks].
    + destruct (skip value prefix); [apply IH; auto | discriminate].
    + destruct (getnum value false) as [[h v]|] eqn:G; [|discriminate].
      apply getnum_range in G.
      destruct ((h <? 0) || (24 <=? h)) eqn:C; [discriminate|].
      apply orb_false_iff in C as [C1 C2]. apply Z.ltb_ge in C1. apply Z.leb_gt in C2.
      apply IH. unfold in_range, set_hour in *; simpl; lia.
    + destruct (getnum value true) as [[m v]|] eqn:G; [|discriminate].
      apply getnum_range in G.
      destruct ((m <? 0) || (60 <=? m)) eqn:C; [discriminate|].
      apply orb_false_iff in C as [C1 C2]. apply Z.ltb_ge in C1. apply Z.leb_gt in C2.
      apply IH. unfold in_range, set_minute in *; simpl; lia.
    + destruct (getnum value true) as [[s v]|] eqn:G; [|discriminate].
      apply getnum_range in G.
      destruct ((s <? 0) || (60 <=? s)) eqn:C; [discriminate|].
      apply orb_false_iff in C as [C1 C2]. apply Z.ltb_ge in C1. apply Z.leb_gt in C2.
      assert (Hs : in_range (set_second t s)) by (unfold in_range, set_second in *; simpl; lia).
      destruct ((2 <=? Z.of_nat (List.length v)) && commaOrPeriod (hd 0 v) && isDigit v 1).
      * destruct (next_std_is_frac rest); [apply IH; auto|].
        destruct (parseNanoseconds v (2 + count_digits (skipn 2 v))) as [ns|] eqn:P;
          [|discriminate].
        apply parseNanoseconds_range in P.
        apply IH. unfold in_range, set_nanosecond in *; simpl; lia.
      * apply IH; auto.
    + destruct (Nat.ltb (List.length value) (S ndigits)); [discriminate|].
      destruct (parseNanoseconds value (S ndigits)) as [ns|] eqn:P; [|discriminate].
      apply parseNanoseconds_range in P.
      apply IH. unfold in_range, set_nanosecond in *; simpl; lia.
Qed.

Lemma Parse_range (layout : list chunk) (value : bytes) (d : Time) :
  Parse layout value = Some d -> in_range d.
Proof.
  apply parse_chunks_range. unfold in_range, time0; simpl; lia.
Qed.

Lemma StringTimeToTime_range (t : bytes) (d : Time) :
  StringTimeToTime t = Ok d -> in_range d.
Proof.
  unfold StringTimeToTime.
  destruct (Parse layout_000 t) eqn:E1; [intros H; inversion H; subst; eapply Parse_range; eauto|].
  destruct (Parse layout_0 t) eqn:E2; [intros H; inversion H; subst; eapply Parse_range; eauto|].
  destruct (Parse layout_s t) eqn:E3; [intros H; inversion H; subst; eapply Parse_range; eauto|].
  discriminate.
Qed.

Lemma millis_formula (d : Time) :
  in_range d ->
  to_uint32 (Z.quot (hour d * Hour + minute d * Minute + second d * Second + nanosecond d)
               Millisecond)
  = hour d * 3600000 + minute d * 60000 + second d * 1000 + nanosecond d / 1000000
  /\ hour d * 3600000 + minute d * 60000 + second d * 1000 + nanosecond d / 1000000
     < 86400000.
Proof.
  unfold in_range, Hour, Minute, Second, Millisecond. intros (Hh & Hm & Hs & Hn).
  rewrite Z.quot_div_nonneg by lia.
  replace (hour d * (60 * (60 * (1000 * 1000000))) + minute d * (60 * (1000 * 1000000))
           + second d * (1000 * 1000000) + nanosecond d)
    with ((hour d * 3600000 + minute d * 60000 + second d * 1000) * 1000000 + nanosecond d)
    by ring.
  rewrite Z.div_add_l by lia.
  assert (Hq : 0 <= nanosecond d / 1000000 < 1000).
  { split; [apply Z.div_pos; lia | apply Z.div_lt_upper_bound; lia]. }
  split; [|lia].
  unfold to_uint32. apply Z.mod_small. lia.
Qed.

Lemma getnum_hour_field (hs r : bytes) :
  hour_field hs -> getnum (hs ++ 58 :: r) false = Some (digit_value hs, 58 :: r).
Proof.
  intros [Hd Hl]. destruct hs as [|a [|b [|c hs]]]; cbn [List.length] in Hl; try lia;
    inversion Hd as [|x l Ha Hd']; subst.
  - unfold getnum. cbn [app]. rewrite Ha. reflexivity.
  - inversion Hd' as [|y l' Hb _]; subst.
    unfold getnum. cbn [app]. rewrite Ha, Hb. cbv beta iota.
    unfold digit_value. simpl. do 2 f_equal; try ring.
Qed.

Lemma getnum_two_digit (ds r : bytes) (f : bool) :
  two_digit_field ds -> getnum (ds ++ r) f = Some (digit_value ds, r).
Proof.
  intros [Hd Hl]. destruct ds as [|a [|b [|c ds]]]; cbn [List.length] in Hl; try lia.
  inversion Hd as [|x l Ha Hd']; subst. inversion Hd' as [|y l' Hb _]; subst.
  unfold getnum. cbn [app]. rewrite Ha, Hb. cbv beta iota.
  unfold digit_value. simpl. do 2 f_equal; try ring.
Qed.

Lemma skip_colon (x : bytes) : skip (58 :: x) (str ":") = Some x.
Proof. reflexivity. Qed.

Lemma isDigitB_true (c : Z) : isDigitB c = true -> 48 <= c <= 57.
Proof.
  unfold isDigitB. intros H. apply andb_prop in H as [H1 H2].
  apply Z.leb_le in H1, H2. lia.
Qed.

Lemma skip_colon_digit (c : Z) (v : bytes) :
  isDigitB c = true -> skip (c :: v) (str ":") = None.
Proof.
  intros Hc. apply isDigitB_true in Hc.
  change (skip (c :: v) (str ":")) with (if c =? 58 then Some v else None).
  replace (c =? 58) with false by (symmetry; apply Z.eqb_neq; lia). reflexivity.
Qed.

Lemma digit_value_one (a : Z) : isDigitB a = true -> digit_value [a] <= 9.
Proof. intros Ha. apply isDigitB_true in Ha. unfold digit_value. simpl. lia. Qed.

(** [getnum] on a digit string worth more than 9: it reads the whole string,
    or stops before a digit. *)
Lemma getnum_long (hs r : bytes) (f : bool) (n : Z) (v : bytes) :
  Forall (fun c => isDigitB c = true) hs -> 9 < digit_value hs ->
  getnum (hs ++ r) f = Some (n, v) ->
  (n = digit_value hs /\ v = r) \/ (exists c v', v = c :: v' /\ isDigitB c = true).
Proof.
  intros Hd Hv. destruct hs as [|a [|b [|c hs']]].
  - unfold digit_value in Hv. simpl in Hv. lia.
  - inversion Hd as [|x l Ha _]; subst. pose proof (digit_value_one a Ha). lia.
  - inversion Hd as [|x l Ha Hd']; subst. inversion Hd' as [|y l' Hb _]; subst.
    unfold getnum. cbn [app]. rewrite Ha, Hb. cbv beta iota. cbn [negb].
    intros H. inversion H; subst. left. split; [|reflexivity].
    unfold digit_value. simpl. ring.
  - inversion Hd as [|x l Ha Hd']; subst. inversion Hd' as [|y l' Hb Hd'']; subst.
    inversion Hd'' as [|z l'' Hc _]; subst.
    unfold getnum. cbn [app]. rewrite Ha, Hb. cbv beta iota. cbn [negb].
    intros H. inversion H; subst. right. exists c, (hs' ++ r). split; [reflexivity|exact Hc].
Qed.

(** [getnum] on a digit string followed by ':'. *)
Lemma getnum_colon (hs x : bytes) (f : bool) :
  Forall (fun c => isDigitB c = true) hs ->
  getnum (hs ++ 58 :: x) f = None
  \/ (exists n, getnum (hs ++ 58 :: x) f = Some (n, 58 :: x))
  \/ (exists n c v', getnum (hs ++ 58 :: x) f = Some (n, c :: v') /\ isDigitB c = true).
Proof.
  intros Hd. destruct hs as [|a [|b [|c hs']]].
  - left. reflexivity.
  - inversion Hd as [|x' l Ha _]; subst.
    unfold getnum. cbn [app]. rewrite Ha. cbv beta iota. cbn [negb isDigitB].
    destruct f; [left; reflexivity | right; left; eexists; reflexivity].
  - inversion Hd as [|x' l Ha Hd']; subst. inversion Hd' as [|y l' Hb _]; subst.
    unfold getnum. cbn [app]. rewrite Ha, Hb. cbv beta iota. cbn [negb].
    right; left; eexists; reflexivity.
  - inversion Hd as [|x' l Ha Hd']; subst. inversion Hd' as [|y l' Hb Hd'']; subst.
    inversion Hd'' as [|z l'' Hc _]; subst.
    unfold getnum. cbn [app]. rewrite Ha, Hb. cbv beta iota. cbn [negb].
    right; right. exists ((a - 48) * 10 + (b - 48)), c, (hs' ++ 58 :: x). split; [reflexivity|exact Hc].
Qed.

(** The hour, then ':': either the parse stops, or it goes on after the ':'. *)
Lemma hour_colon (tl : list chunk) (hs x : bytes) (t : Time) :
  Forall (fun c => isDigitB c = true) hs ->
  parse_chunks (StdHour :: Lit (str ":") :: tl) (hs ++ 58 :: x) t = None
  \/ exists t', parse_chunks (StdHour :: Lit (str ":") :: tl) (hs ++ 58 :: x) t
               = parse_chunks tl x t'.
Proof.
  intros Hd. cbn [parse_chunks].
  destruct (getnum_colon hs x false Hd) as [E|[[n E]|[n [c [v' [E Hc]]]]]]; rewrite E;
    [left; reflexivity| |]; destruct ((n <? 0) || (24 <=? n)); try (left; reflexivity).
  - right. rewrite skip_colon. eexists. reflexivity.
  - left. rewrite (skip_colon_digit c v' Hc). reflexivity.
Qed.

Lemma minute_colon (tl : list chunk) (mm x : bytes) (t : Time) :
  Forall (fun c => isDigitB c = true) mm ->
  parse_chunks (StdZeroMinute :: Lit (str ":") :: tl) (mm ++ 58 :: x) t = None
  \/ exists t', parse_chunks (StdZeroMinute :: Lit (str ":") :: tl) (mm ++ 58 :: x) t
               = parse_chunks tl x t'.
Proof.
  intros Hd. cbn [parse_chunks].
  destruct (getnum_colon mm x true Hd) as [E|[[n E]|[n [c [v' [E Hc]]]]]]; rewrite E;
    [left; reflexivity| |]; destruct ((n <? 0) || (60 <=? n)); try (left; reflexivity).
  - right. rewrite skip_colon. eexists. reflexivity.
  - left. rewrite (skip_colon_digit c v' Hc). reflexivity.
Qed.

Lemma hour_big (tl : list chunk) (hs rest : bytes) (t : Time) :
  Forall (fun c => isDigitB c = true) hs -> 23 < digit_value hs ->
  parse_chunks (StdHour :: Lit (str ":") :: tl) (hs ++ rest) t = None.
Proof.
  intros Hd Hv. cbn [parse_chunks].
  destruct (getnum (hs ++ rest) false) as [[n v]|] eqn:G; [|reflexivity].
  destruct (getnum_long hs rest false n v Hd ltac:(lia) G) as [[-> ->]|[c [v' [-> Hc]]]].
  - replace ((digit_value hs <? 0) || (24 <=? digit_value hs)) with true
      by (symmetry; apply orb_true_iff; right; apply Z.leb_le; lia). reflexivity.
  - destruct ((n <? 0) || (24 <=? n)); [reflexivity|].
    rewrite (skip_colon_digit c v' Hc). reflexivity.
Qed.

Lemma minute_big (tl : list chunk) (mm rest : bytes) (t : Time) :
  Forall (fun c => isDigitB c = true) mm -> 59 < digit_value mm ->
  parse_chunks (StdZeroMinute :: Lit (str ":") :: tl) (mm ++ rest) t = None.
Proof.
  intros Hd Hv. cbn [parse_chunks].
  destruct (getnum (mm ++ rest) true) as [[n v]|] eqn:G; [|reflexivity].
  destruct (getnum_long mm rest true n v Hd ltac:(lia) G) as [[-> ->]|[c [v' [-> Hc]]]].
  - replace ((digit_value mm <? 0) || (60 <=? digit_value mm)) with true
      by (symmetry; apply orb_true_iff; right; apply Z.leb_le; lia). reflexivity.
  - destruct ((n <? 0) || (60 <=? n)); [reflexivity|].
    rewrite (skip_colon_digit c v' Hc). reflexivity.
Qed.

(** [tl] below is what follows the seconds in the three layouts: nothing or
    one fractional-second element. *)
Lemma tail_digit (tl : list chunk) (c : Z) (v : bytes) (t : Time) :
  (tl = [] \/ exists k, tl = [StdFracSecond0 k]) -> isDigitB c = true -> parse_chunks tl (c :: v) t = None.
Proof.
  intros [->|[k ->]] Hc; [reflexivity|].
  apply isDigitB_true in Hc. cbn [parse_chunks].
  destruct (Nat.ltb (List.length (c :: v)) (S k)); [reflexivity|].
  unfold parseNanoseconds, commaOrPeriod.
  replace (c =? 46) with false by (symmetry; apply Z.eqb_neq; lia).
  replace (c =? 44) with false by (symmetry; apply Z.eqb_neq; lia). reflexivity.
Qed.

Lemma second_big (tl : list chunk) (ss rest : bytes) (t : Time) :
  (tl = [] \/ exists k, tl = [StdFracSecond0 k]) ->
  Forall (fun c => isDigitB c = true) ss -> 59 < digit_value ss ->
  parse_chunks (StdZeroSecond :: tl) (ss ++ rest) t = None.
Proof.
  intros Htl Hd Hv. cbn [parse_chunks].
  destruct (getnum (ss ++ rest) true) as [[n v]|] eqn:G; [|reflexivity].
  destruct (getnum_long ss rest true n v Hd ltac:(lia) G) as [[-> ->]|[c [v' [-> Hc]]]].
  - replace ((digit_value ss <? 0) || (60 <=? digit_value ss)) with true
      by (symmetry; apply orb_true_iff; right; apply Z.leb_le; lia). reflexivity.
  - destruct ((n <? 0) || (60 <=? n)); [reflexivity|].
    assert (Hcp : commaOrPeriod (hd 0 (c :: v')) = false).
    { apply isDigitB_true in Hc. unfold commaOrPeriod. cbn [hd].
      apply orb_false_iff. split; apply Z.eqb_neq; lia. }
    rewrite Hcp, andb_false_r. cbn [andb]. exact (tail_digit tl c v' _ Htl Hc).
Qed.

Lemma hms_layouts (s : bytes) :
  (forall tl t, (tl = [] \/ exists k, tl = [StdFracSecond0 k]) ->
     parse_chunks (StdHour :: Lit (str ":") :: StdZeroMinute :: Lit (str ":")
                   :: StdZeroSecond :: tl) s t = None) ->
  StringTimeToTime s = Err ErrBadChapterStartTime
  /\ StringTimeToMillis s = Err ErrBadChapterStartTime.
Proof.
  intros H.
  assert (E : StringTimeToTime s = Err ErrBadChapterStartTime).
  { unfold StringTimeToTime, Parse, layout_000, layout_0, layout_s.
    rewrite (H [StdFracSecond0 3] time0), (H [StdFracSecond0 1] time0), (H [] time0)
      by eauto.
    reflexivity. }
  split; [exact E|]. unfold StringTimeToMillis. rewrite E. reflexivity.
Qed.

(** C10: a time code whose hour digits (any number of them) are worth more
    than 23, or whose minute or second digits are worth more than 59, is
    rejected by StringTimeToTime and StringTimeToMillis with
    ErrBadChapterStartTime (for example "25:00:00", "24:0:00", "100:00:00"
    and "7:5:100"); every value StringTimeToMillis returns is below
    86,400,000 ms. *)
Theorem time_code_out_of_range :
  (forall hs rest,
     Forall (fun c => isDigitB c = true) hs -> 23 < digit_value hs ->
     StringTimeToTime (hs ++ rest) = Err ErrBadChapterStartTime
     /\ StringTimeToMillis (hs ++ rest) = Err ErrBadChapterStartTime)
  /\ (forall hs mm rest,
        Forall (fun c => isDigitB c = true) hs -> Forall (fun c => isDigitB c = true) mm ->
        59 < digit_value mm ->
        StringTimeToTime (hs ++ str ":" ++ mm ++ rest) = Err ErrBadChapterStartTime
        /\ StringTimeToMillis (hs ++ str ":" ++ mm ++ rest) = Err ErrBadChapterStartTime)
  /\ (forall hs mm ss rest,
        Forall (fun c => isDigitB c = true) hs -> Forall (fun c => isDigitB c = true) mm ->
        Forall (fun c => isDigitB c = true) ss -> 59 < digit_value ss ->
        StringTimeToTime (hs ++ str ":" ++ mm ++ str ":" ++ ss ++ rest)
        = Err ErrBadChapterStartTime
        /\ StringTimeToMillis (hs ++ str ":" ++ mm ++ str ":" ++ ss ++ rest)
           = Err ErrBadChapterStartTime)
  /\ (forall t m, StringTimeToMillis t = Ok m -> 0 <= m < 86400000).
Proof.
  split; [|split; [|split]].
  - intros hs rest Hh Hv. apply hms_layouts. intros tl t _. apply hour_big; assumption.
  - intros hs mm rest Hh Hm Hv. apply hms_layouts. intros tl t _.
    change (str ":" ++ mm ++ rest) with (58 :: mm ++ rest).
    destruct (hour_colon (StdZeroMinute :: Lit (str ":") :: StdZeroSecond :: tl) hs (mm ++ rest) t Hh) as [E|[t' E]]; rewrite E; [reflexivity|].
    apply minute_big; assumption.
  - intros hs mm ss rest Hh Hm Hs Hv. apply hms_layouts. intros tl t Htl.
    change (str ":" ++ mm ++ str ":" ++ ss ++ rest) with (58 :: mm ++ 58 :: ss ++ rest).
    destruct (hour_colon (StdZeroMinute :: Lit (str ":") :: StdZeroSecond :: tl) hs (mm ++ 58 :: ss ++ rest) t Hh) as [E|[t' E]]; rewrite E;
      [reflexivity|].
    destruct (minute_colon (StdZeroSecond :: tl) mm (ss ++ rest) t' Hm) as [E'|[t'' E']]; rewrite E';
      [reflexivity|].
    apply second_big; assumption.
  - intros t m. unfold StringTimeToMillis.
    destruct (StringTimeToTime t) as [d|e] eqn:E; [|discriminate].
    intros H; inversion H; subst.
    destruct (millis_formula d (StringTimeToTime_range t d E)) as [-> Hlt].
    unfold in_range in *. pose proof (StringTimeToTime_range t d E) as (H1 & H2 & H3 & H4).
    pose proof (Z.div_pos (nanosecond d) 1000000 ltac:(lia) ltac:(lia)). lia.
Qed.

Lemma time_code_out_of_range_witness :
  StringTimeToMillis (str "100" ++ str ":00:00") = Err ErrBadChapterStartTime
  /\ StringTimeToMillis (str "24" ++ str ":0:00") = Err ErrBadChapterStartTime
  /\ StringTimeToTime (str "25" ++ str ":00:0") = Err ErrBadChapterStartTime
  /\ StringTimeToMillis (str "7" ++ str ":" ++ str "60" ++ str ":00") = Err ErrBadChapterStartTime
  /\ StringTimeToMillis (str "7" ++ str ":" ++ str "5" ++ str ":" ++ str "100" ++ [])
     = Err ErrBadChapterStartTime
  /\ 0 <= 86399999 < 86400000.
Proof.
  split; [|split; [|split; [|split; [|split]]]].
  - apply (proj1 time_code_out_of_range (str "100") (str ":00:00"));
      [repeat constructor | vm_compute; reflexivity].
  - apply (proj1 time_code_out_of_range (str "24") (str ":0:00"));
      [repeat constructor | vm_compute; reflexivity].
  - apply (proj1 time_code_out_of_range (str "25") (str ":00:0"));
      [repeat constructor | vm_compute; reflexivity].
  - apply (proj1 (proj2 time_code_out_of_range) (str "7") (str "60") (str ":00"));
      [repeat constructor | repeat constructor | vm_compute; reflexivity].
  - apply (proj1 (proj2 (proj2 time_code_out_of_range)) (str "7") (str "5") (str "100") []);
      [repeat constructor | repeat constructor | repeat constructor | vm_compute; reflexivity].
  - apply (proj2 (proj2 (proj2 time_code_out_of_range)) (str "23:59:59.999")).
    vm_compute. reflexivity.
Defined.

Lemma digit_value_acc (ds : bytes) (acc : Z) :
  fold_left (fun acc c => acc * 10 + (c - 48)) ds acc
  = acc * 10 ^ Z.of_nat (List.length ds) + fold_left (fun acc c => acc * 10 + (c - 48)) ds 0.
Proof.
  revert acc. induction ds as [|c ds IH]; intros acc; cbn [fold_left List.length].
  - lia.
  - rewrite IH, (IH (0 * 10 + (c - 48))).
    rewrite Nat2Z.inj_succ, Z.pow_succ_r by lia. ring.
Qed.

Lemma digit_value_bound (ds : bytes) :
  Forall (fun c => isDigitB c = true) ds ->
  0 <= digit_value ds < 10 ^ Z.of_nat (List.length ds).
Proof.
  unfold digit_value. induction ds as [|c ds IH] using rev_ind; intros Hd.
  - simpl. lia.
  - apply Forall_app in Hd as [Hd Hc]. inversion Hc as [|x l Hc' _]; subst.
    apply isDigitB_true in Hc'. specialize (IH Hd).
    rewrite fold_left_app. cbn [fold_left]. rewrite length_app. cbn [List.length].
    rewrite Nat2Z.inj_add, Z.pow_add_r by lia. change (10 ^ Z.of_nat 1) with 10. lia.
Qed.

Lemma leadingInt_acc_digits (ds : bytes) (x : Z) :
  Forall (fun c => isDigitB c = true) ds -> 0 <= x ->
  (x + 1) * 10 ^ Z.of_nat (List.length ds) <= 10 ^ 18 ->
  leadingInt_acc ds x = Some (x * 10 ^ Z.of_nat (List.length ds) + digit_value ds, []).
Proof.
  revert x. induction ds as [|c ds IH]; intros x Hd Hx Hb.
  - cbn. f_equal. f_equal. unfold digit_value. simpl. lia.
  - inversion Hd as [|y l Hc Hd']; subst. cbn [leadingInt_acc]. rewrite Hc.
    apply isDigitB_true in Hc.
    assert (Hp : 0 < 10 ^ Z.of_nat (List.length ds)) by (apply Z.pow_pos_nonneg; lia).
    assert (E : 10 ^ Z.of_nat (List.length (c :: ds)) = 10 * 10 ^ Z.of_nat (List.length ds))
      by (cbn [List.length]; rewrite Nat2Z.inj_succ, Z.pow_succ_r by lia; ring).
    rewrite E in *.
    change (2 ^ 63 / 10) with 922337203685477580.
    replace (x >? 922337203685477580) with false
      by (symmetry; rewrite Z.gtb_ltb; apply Z.ltb_ge; nia).
    replace (x * 10 + (c - 48) >? 2 ^ 63) with false
      by (symmetry; rewrite Z.gtb_ltb; apply Z.ltb_ge; change (2 ^ 63) with 9223372036854775808; nia).
    rewrite IH by (auto; nia). f_equal. f_equal.
    unfold digit_value. cbn [fold_left]. rewrite (digit_value_acc ds (0 * 10 + (c - 48))).
    ring.
Qed.

Lemma atoi_digits (ds : bytes) :
  Forall (fun c => isDigitB c = true) ds -> (List.length ds <= 18)%nat ->
  atoi ds = Some (digit_value ds).
Proof.
  intros Hd Hl.
  assert (H : leadingInt ds = Some (digit_value ds, [])).
  { unfold leadingInt. rewrite leadingInt_acc_digits by (auto; try lia;
      replace 18 with (Z.of_nat 18) by reflexivity; rewrite Z.mul_1_l;
      apply Z.pow_le_mono_r; lia).
    reflexivity. }
  unfold atoi. destruct ds as [|c ds'].
  - reflexivity.
  - inversion Hd as [|y l Hc _]; subst. apply isDigitB_true in Hc.
    replace ((c =? 45) || (c =? 43)) with false
      by (symmetry; apply orb_false_iff; split; apply Z.eqb_neq; lia).
    rewrite H. reflexivity.
Qed.

Lemma count_digits_all (ds : bytes) :
  Forall (fun c => isDigitB c = true) ds -> count_digits ds = List.length ds.
Proof. induction 1 as [|c ds Hc _ IH]; cbn; [reflexivity | rewrite Hc, IH; reflexivity]. Qed.

(** A [.000]-style element on a fraction of digits. *)
Lemma frac_chunk_ok (k : nat) (sep : Z) (ds : bytes) (t t' : Time) :
  commaOrPeriod sep = true -> Forall (fun c => isDigitB c = true) ds -> (k <= 9)%nat ->
  parse_chunks [StdFracSecond0 k] (sep :: ds) t = Some t' ->
  List.length ds = k /\ t' = set_nanosecond t (digit_value ds * 10 ^ (9 - Z.of_nat k)).
Proof.
  intros Hs Hd Hk. cbn [parse_chunks].
  destruct (Nat.ltb (List.length (sep :: ds)) (S k)) eqn:L; [discriminate|].
  apply Nat.ltb_ge in L. cbn [List.length] in L.
  unfold parseNanoseconds. rewrite Hs. cbn [negb].
  replace (Nat.min (S k) 10) with (S k) by lia. replace (S k - 1)%nat with k by lia.
  assert (Hf : Forall (fun c => isDigitB c = true) (firstn k ds))
    by (rewrite <- (firstn_skipn k ds) in Hd; apply Forall_app in Hd; tauto).
  rewrite atoi_digits by (auto; rewrite length_firstn; lia).
  pose proof (digit_value_bound _ Hf) as [Hv _].
  replace (digit_value (firstn k ds) <? 0) with false by (symmetry; apply Z.ltb_ge; lia).
  cbn [skipn].
  destruct (skipn k ds) as [|x r] eqn:Es; [|discriminate].
  intros H. injection H as <-.
  assert (Hl : List.length ds = k).
  { pose proof (firstn_skipn k ds) as F. rewrite Es, app_nil_r in F.
    rewrite <- F, length_firstn. lia. }
  split; [exact Hl|]. rewrite firstn_all2 by lia.
  do 3 f_equal. change (10 - Z.of_nat (S k) = 9 - Z.of_nat k). lia.
Qed.

Lemma millis_fields (h m s ns : Z) :
  0 <= h < 24 -> 0 <= m < 60 -> 0 <= s < 60 -> 0 <= ns < 10 ^ 9 ->
  to_uint32 (Z.quot (h * Hour + m * Minute + s * Second + ns) Millisecond)
  = h * 3600000 + m * 60000 + s * 1000 + ns / 1000000.
Proof.
  intros Hh Hm Hs Hn.
  exact (proj1 (millis_formula (mkTime 0 1 1 h m s ns) ltac:(unfold in_range; simpl; lia))).
Qed.

Lemma frac_scaled_bound (v : Z) (k : nat) :
  (k <= 9)%nat -> 0 <= v < 10 ^ Z.of_nat k -> 0 <= v * 10 ^ (9 - Z.of_nat k) < 10 ^ 9.
Proof.
  intros Hk Hv.
  assert (E : 10 ^ 9 = 10 ^ Z.of_nat k * 10 ^ (9 - Z.of_nat k))
    by (rewrite <- Z.pow_add_r by lia; f_equal; lia).
  assert (0 < 10 ^ (9 - Z.of_nat k)) by (apply Z.pow_pos_nonneg; lia).
  rewrite E. nia.
Qed.

Lemma hm_prefix (tl : list chunk) (hh mm rest : bytes) (t : Time) :
  hour_field hh -> two_digit_field mm -> digit_value hh < 24 -> digit_value mm < 60 ->
  parse_chunks (StdHour :: Lit (str ":") :: StdZeroMinute :: Lit (str ":") :: tl)
    (hh ++ str ":" ++ mm ++ str ":" ++ rest) t
  = parse_chunks tl rest (set_minute (set_hour t (digit_value hh)) (digit_value mm)).
Proof.
  intros Hh Hm Hhv Hmv.
  pose proof (digit_value_bound hh (proj1 Hh)) as [Hh0 _].
  pose proof (digit_value_bound mm (proj1 Hm)) as [Hm0 _].
  change (str ":" ++ mm ++ str ":" ++ rest) with (58 :: mm ++ 58 :: rest).
  cbn [parse_chunks]. rewrite (getnum_hour_field hh _ Hh). cbv beta iota.
  replace ((digit_value hh <? 0) || (24 <=? digit_value hh)) with false
    by (symmetry; apply orb_false_iff; split; [apply Z.ltb_ge | apply Z.leb_gt]; lia).
  rewrite skip_colon. cbv beta iota.
  rewrite (getnum_two_digit mm _ true Hm). cbv beta iota.
  replace ((digit_value mm <? 0) || (60 <=? digit_value mm)) with false
    by (symmetry; apply orb_false_iff; split; [apply Z.ltb_ge | apply Z.leb_gt]; lia).
  rewrite skip_colon. reflexivity.
Qed.

Lemma seconds_frac_check (sep d : Z) (ds : bytes) :
  commaOrPeriod sep = true -> isDigitB d = true ->
  (2 <=? Z.of_nat (List.length (sep :: d :: ds))) && commaOrPeriod (hd 0 (sep :: d :: ds))
  && isDigit (sep :: d :: ds) 1 = true.
Proof.
  intros Hs Hd. cbn [hd isDigit nth_error]. rewrite Hs, Hd.
  replace (2 <=? Z.of_nat (List.length (sep :: d :: ds))) with true
    by (symmetry; apply Z.leb_le; cbn [List.length]; lia).
  reflexivity.
Qed.

Lemma seconds_then_frac (k : nat) (ss : bytes) (sep d : Z) (ds : bytes) (t : Time) :
  two_digit_field ss -> digit_value ss < 60 -> commaOrPeriod sep = true -> isDigitB d = true ->
  parse_chunks [StdZeroSecond; StdFracSecond0 k] (ss ++ sep :: d :: ds) t
  = parse_chunks [StdFracSecond0 k] (sep :: d :: ds) (set_second t (digit_value ss)).
Proof.
  intros Hs Hsv Hsep Hd.
  pose proof (digit_value_bound ss (proj1 Hs)) as [Hs0 _].
  cbn [parse_chunks]. rewrite (getnum_two_digit ss _ true Hs). cbv beta iota.
  replace ((digit_value ss <? 0) || (60 <=? digit_value ss)) with false
    by (symmetry; apply orb_false_iff; split; [apply Z.ltb_ge | apply Z.leb_gt]; lia).
  rewrite (seconds_frac_check sep d ds Hsep Hd). reflexivity.
Qed.

Lemma seconds_any_frac (ss : bytes) (sep : Z) (ds : bytes) (t : Time) :
  two_digit_field ss -> digit_value ss < 60 -> commaOrPeriod sep = true ->
  ds <> [] -> Forall (fun c => isDigitB c = true) ds ->
  parse_chunks [StdZeroSecond] (ss ++ sep :: ds) t
  = Some (set_nanosecond (set_second t (digit_value ss))
            (digit_value (firstn (Nat.min (List.length ds) 9) ds)
             * 10 ^ (9 - Z.of_nat (Nat.min (List.length ds) 9)))).
Proof.
  intros Hs Hsv Hsep Hne Hd.
  destruct ds as [|d ds']; [congruence|].
  inversion Hd as [|x l Hd0 Hd']; subst.
  pose proof (digit_value_bound ss (proj1 Hs)) as [Hs0 _].
  cbn [parse_chunks]. rewrite (getnum_two_digit ss _ true Hs). cbv beta iota.
  replace ((digit_value ss <? 0) || (60 <=? digit_value ss)) with false
    by (symmetry; apply orb_false_iff; split; [apply Z.ltb_ge | apply Z.leb_gt]; lia).
  rewrite (seconds_frac_check sep d ds' Hsep Hd0). cbn [next_std_is_frac].
  cbv beta iota zeta. cbn [skipn]. rewrite count_digits_all by exact Hd'.
  unfold parseNanoseconds. rewrite Hsep. cbn [negb].
  replace (Nat.min (2 + List.length ds') 10 - 1)%nat with (Nat.min (List.length (d :: ds')) 9)
    by (cbn [List.length]; lia).
  set (k := Nat.min (List.length (d :: ds')) 9).
  assert (Hf : Forall (fun c => isDigitB c = true) (firstn k (d :: ds')))
    by (rewrite <- (firstn_skipn k (d :: ds')) in Hd; apply Forall_app in Hd; tauto).
  rewrite atoi_digits by (auto; rewrite length_firstn; unfold k; lia).
  pose proof (digit_value_bound _ Hf) as [Hv _].
  replace (digit_value (firstn k (d :: ds')) <? 0) with false by (symmetry; apply Z.ltb_ge; lia).
  rewrite skipn_all2 by (cbn [List.length]; lia).
  cbn [parse_chunks]. do 4 f_equal.
  subst k. cbn [List.length]. rewrite !Nat2Z.inj_min. lia.
Qed.

Lemma seconds_no_frac (ss : bytes) (k : nat) (t : Time) :
  two_digit_field ss -> digit_value ss < 60 ->
  parse_chunks [StdZeroSecond] ss t = Some (set_second t (digit_value ss))
  /\ parse_chunks [StdZeroSecond; StdFracSecond0 k] ss t = None.
Proof.
  intros Hs Hsv.
  pose proof (digit_value_bound ss (proj1 Hs)) as [Hs0 _].
  pose proof (getnum_two_digit ss [] true Hs) as G. rewrite app_nil_r in G.
  cbn [parse_chunks]. rewrite G. cbv beta iota.
  replace ((digit_value ss <? 0) || (60 <=? digit_value ss)) with false
    by (symmetry; apply orb_false_iff; split; [apply Z.ltb_ge | apply Z.leb_gt]; lia).
  split; reflexivity.
Qed.

(** C2 (counterexample): "00:00:01.25" has two fractional digits, so it
    matches none of the three formats as the spec words them, yet
    StringTimeToMillis accepts it: time.Parse with layout "15:04:05" takes
    a fractional part of any length after the seconds. *)
Lemma time_formats_lenient :
  spec_matches_some_format (str "00:00:01.25") = false
  /\ Parse layout_000 (str "00:00:01.25") = None
  /\ Parse layout_0 (str "00:00:01.25") = None
  /\ Parse layout_s (str "00:00:01.25") = Some (mkTime 0 1 1 0 0 1 250000000)
  /\ StringTimeToMillis (str "00:00:01.25") = Ok 1250.
Proof. vm_compute. repeat split. Qed.

(** C2 (amended): StringTimeToMillis tries time.Parse with the layouts
    "15:04:05.000", "15:04:05.0" and "15:04:05" in this order; the first
    that parses wins, and if none does the result is ErrBadChapterStartTime;
    on success the result is hours*3600000 + minutes*60000 + seconds*1000
    + the fractional nanoseconds divided by 10^6.  time.Parse accepts more
    than the layouts spell out: for hours (one or two digits, below 24),
    two minute and two second digits (each below 60), then '.' or ',' and
    any number n >= 1 of digits, the result is hours*3600000 +
    minutes*60000 + seconds*1000 + (the first min(n, 9) fraction digits,
    scaled to nanoseconds) / 10^6, digits past the ninth being ignored;
    without a fraction it is hours*3600000 + minutes*60000 + seconds*1000. *)
Theorem StringTimeToMillis_formats (t : bytes) :
  StringTimeToMillis t =
    match first_parse [layout_000; layout_0; layout_s] t with
    | Some d => Ok (hour d * 3600000 + minute d * 60000 + second d * 1000
                    + nanosecond d / 1000000)
    | None => Err ErrBadChapterStartTime
    end
  /\ (forall hh mm ss sep ds,
     hour_field hh -> two_digit_field mm -> two_digit_field ss ->
     digit_value hh < 24 -> digit_value mm < 60 -> digit_value ss < 60 ->
     (sep = 46 \/ sep = 44) -> ds <> [] -> Forall (fun c => isDigitB c = true) ds ->
     StringTimeToMillis (hh ++ str ":" ++ mm ++ str ":" ++ ss ++ sep :: ds)
     = Ok (digit_value hh * 3600000 + digit_value mm * 60000 + digit_value ss * 1000
           + digit_value (firstn (Nat.min (List.length ds) 9) ds)
             * 10 ^ (9 - Z.of_nat (Nat.min (List.length ds) 9)) / 1000000))
  /\ (forall hh mm ss,
        hour_field hh -> two_digit_field mm -> two_digit_field ss ->
        digit_value hh < 24 -> digit_value mm < 60 -> digit_value ss < 60 ->
        StringTimeToMillis (hh ++ str ":" ++ mm ++ str ":" ++ ss)
        = Ok (digit_value hh * 3600000 + digit_value mm * 60000 + digit_value ss * 1000))
  /\ StringTimeToMillis (str "00:00:01.25") = Ok 1250
  /\ StringTimeToMillis (str "00:00:01,500") = Ok 1500.
Proof.
  split; [|split; [|split; [|split; vm_compute; reflexivity]]].
  - unfold StringTimeToMillis.
    destruct (StringTimeToTime t) as [d|e] eqn:E.
    + rewrite (proj1 (millis_formula d (StringTimeToTime_range t d E))).
      unfold StringTimeToTime in E. cbn [first_parse].
      destruct (Parse layout_000 t); [inversion E; reflexivity|].
      destruct (Parse layout_0 t); [inversion E; reflexivity|].
      destruct (Parse layout_s t); inversion E; reflexivity.
    + unfold StringTimeToTime in E. cbn [first_parse].
      destruct (Parse layout_000 t); [discriminate|].
      destruct (Parse layout_0 t); [discriminate|].
      destruct (Parse layout_s t); [discriminate|]. inversion E; reflexivity.
  - intros hh mm ss sep ds Hh Hm Hs Hhv Hmv Hsv Hsep Hne Hd.
    assert (Hc : commaOrPeriod sep = true) by (destruct Hsep; subst; reflexivity).
    pose proof (digit_value_bound hh (proj1 Hh)) as [Hh0 _].
    pose proof (digit_value_bound mm (proj1 Hm)) as [Hm0 _].
    pose proof (digit_value_bound ss (proj1 Hs)) as [Hs0 _].
    unfold StringTimeToMillis, StringTimeToTime, Parse, layout_000, layout_0, layout_s.
    rewrite !hm_prefix by assumption.
    destruct ds as [|d ds']; [congruence|].
    inversion Hd as [|x l Hd0 Hd']; subst x l.
    rewrite !seconds_then_frac by assumption.
    set (t2 := set_second (set_minute (set_hour time0 (digit_value hh)) (digit_value mm))
                 (digit_value ss)).
    destruct (parse_chunks [StdFracSecond0 3] (sep :: d :: ds') t2) as [t'|] eqn:E3.
    { apply frac_chunk_ok in E3 as [Hl ->]; [|assumption|assumption|lia].
      pose proof (digit_value_bound _ Hd) as Hb. rewrite Hl in Hb.
      subst t2. cbn [hour minute second nanosecond set_nanosecond set_second set_minute set_hour time0].
      rewrite millis_fields by (try lia; apply (frac_scaled_bound _ 3); lia).
      replace (Nat.min (List.length (d :: ds')) 9) with (List.length (d :: ds')) by lia.
      rewrite firstn_all, Hl. reflexivity. }
    destruct (parse_chunks [StdFracSecond0 1] (sep :: d :: ds') t2) as [t'|] eqn:E1.
    { apply frac_chunk_ok in E1 as [Hl ->]; [|assumption|assumption|lia].
      pose proof (digit_value_bound _ Hd) as Hb. rewrite Hl in Hb.
      subst t2. cbn [hour minute second nanosecond set_nanosecond set_second set_minute set_hour time0].
      rewrite millis_fields by (try lia; apply (frac_scaled_bound _ 1); lia).
      replace (Nat.min (List.length (d :: ds')) 9) with (List.length (d :: ds')) by lia.
      rewrite firstn_all, Hl. reflexivity. }
    rewrite seconds_any_frac by (auto; discriminate).
    set (k := Nat.min (List.length (d :: ds')) 9).
    assert (Hf : Forall (fun c => isDigitB c = true) (firstn k (d :: ds')))
      by (rewrite <- (firstn_skipn k (d :: ds')) in Hd; apply Forall_app in Hd; tauto).
    pose proof (digit_value_bound _ Hf) as Hb. rewrite length_firstn in Hb.
    replace (Nat.min k (List.length (d :: ds'))) with k in Hb by (subst k; lia).
    subst t2. cbn [hour minute second nanosecond set_nanosecond set_second set_minute set_hour time0].
    rewrite millis_fields by (try lia; apply frac_scaled_bound; subst k; lia).
    reflexivity.
  - intros hh mm ss Hh Hm Hs Hhv Hmv Hsv.
    pose proof (digit_value_bound hh (proj1 Hh)) as [Hh0 _].
    pose proof (digit_value_bound mm (proj1 Hm)) as [Hm0 _].
    pose proof (digit_value_bound ss (proj1 Hs)) as [Hs0 _].
    unfold StringTimeToMillis, StringTimeToTime, Parse, layout_000, layout_0, layout_s.
    rewrite !hm_prefix by assumption.
    rewrite (proj2 (seconds_no_frac ss 3 _ Hs Hsv)), (proj2 (seconds_no_frac ss 1 _ Hs Hsv)),
      (proj1 (seconds_no_frac ss 0 _ Hs Hsv)).
    cbn [hour minute second nanosecond set_second set_minute set_hour time0].
    rewrite millis_fields by lia. f_equal. rewrite Z.div_0_l by lia. ring.
Qed.

Lemma StringTimeToMillis_formats_witness :
  StringTimeToMillis (str "0" ++ str ":" ++ str "00" ++ str ":" ++ str "01" ++ 44 :: str "2500")
  = Ok 1250
  /\ StringTimeToMillis (str "12" ++ str ":" ++ str "34" ++ str ":" ++ str "56" ++ 46
                         :: str "987654321987")
     = Ok 45296987
  /\ StringTimeToMillis (str "23" ++ str ":" ++ str "59" ++ str ":" ++ str "59") = Ok 86399000.
Proof.
  split; [|split].
  - exact (proj1 (proj2 (StringTimeToMillis_formats [])) (str "0") (str "00") (str "01") 44
             (str "2500") ltac:(split; [repeat constructor | left; reflexivity])
             ltac:(split; [repeat constructor | reflexivity])
             ltac:(split; [repeat constructor | reflexivity])
             ltac:(vm_compute; reflexivity) ltac:(vm_compute; reflexivity)
             ltac:(vm_compute; reflexivity) ltac:(right; reflexivity) ltac:(discriminate)
             ltac:(repeat constructor)).
  - exact (proj1 (proj2 (StringTimeToMillis_formats [])) (str "12") (str "34") (str "56") 46
             (str "987654321987") ltac:(split; [repeat constructor | right; reflexivity])
             ltac:(split; [repeat constructor | reflexivity])
             ltac:(split; [repeat constructor | reflexivity])
             ltac:(vm_compute; reflexivity) ltac:(vm_compute; reflexivity)
             ltac:(vm_compute; reflexivity) ltac:(left; reflexivity) ltac:(discriminate)
             ltac:(repeat constructor)).
  - exact (proj1 (proj2 (proj2 (StringTimeToMillis_formats []))) (str "23") (str "59") (str "59")
             ltac:(split; [repeat constructor | right; reflexivity])
             ltac:(split; [repeat constructor | reflexivity])
             ltac:(split; [repeat constructor | reflexivity])
             ltac:(vm_compute; reflexivity) ltac:(vm_compute; reflexivity)
             ltac:(vm_compute; reflexivity)).
Defined.

(** ** The ffmetadata text *)

Lemma runes_nil_iff (s : bytes) : runes s = [] <-> s = [].
Proof.
  destruct s as [|b s]; [tauto|]. split; [|discriminate].
  cbn [runes]. intro H.
  repeat match type of H with
         | context [if ?c then _ else _] => destruct c
         | context [match ?x with _ => _ end] => destruct x
         end; discriminate H.
Qed.

Lemma bytes_eqb_neq (v : bytes) : v <> [] -> bytes_eqb v [] = false.
Proof. unfold bytes_eqb. destruct (list_eq_dec Z.eq_dec v []); congruence. Qed.

Lemma gate_eq (v : bytes) :
  Nat.ltb 0 (List.length (runes v)) = negb (bytes_eqb v []).
Proof.
  destruct v as [|b v]; [reflexivity|].
  rewrite bytes_eqb_neq by congruence.
  destruct (runes (b :: v)) eqn:E; [apply (proj1 (runes_nil_iff _)) in E; congruence|reflexivity].
Qed.

Lemma if_negb_nil (b : bool) (L : bytes) :
  (if negb b then L else []) = (if b then [] else L).
Proof. now destruct b. Qed.

Lemma append_kvpairs_flat (out : bytes) (kvs : list (bytes * bytes)) :
  append_kvpairs out kvs =
  out ++ flat_map (fun kv => if Nat.ltb 0 (List.length (runes (snd kv)))
                             then fst kv ++ str "=" ++ TrimSpace (strip_linefeeds (snd kv)) ++ NL
                             else []) kvs.
Proof.
  unfold append_kvpairs. revert out.
  induction kvs as [|kv kvs IH]; intro out; cbn [fold_left flat_map].
  - now rewrite app_nil_r.
  - rewrite IH. destruct (Nat.ltb 0 _); unfold appendKVPair; now rewrite <- ?app_assoc.
Qed.

Lemma txt_loop_prefix n starts millis i chs out :
  exists rest, txt_loop n starts millis i chs out = out ++ rest.
Proof.
  revert i out. induction chs as [|ch chs IH]; intros i out; cbn [txt_loop].
  - exists []. now rewrite app_nil_r.
  - destruct (IH (S i) (out ++ chapter_block (nth i starts 0)
                                (chapter_end n starts millis i) (Title ch))) as [rest E].
    rewrite E. eexists. now rewrite <- app_assoc.
Qed.

Lemma GetFFmpegChaptersTXT_some duration chapters out e :
  GetFFmpegChaptersTXT duration chapters = (Some out, e) ->
  chapters <> [] /\ exists rest, out = ffmetadata_header ++ rest.
Proof.
  destruct (GetFFmpegChaptersTXT_cases duration chapters)
    as [[E _]|[[E _]|[[E _]|[starts [Hc [_ [_ E]]]]]]]; rewrite E; try discriminate.
  intro H. injection H as H1 _. subst out. split; [exact Hc|]. apply txt_loop_prefix.
Qed.

Lemma WriteFFmpegMetadataFile_eq fs duration input :
  WriteFFmpegMetadataFile fs duration input =
  match GetFFmpegChaptersTXT duration (TrackInfo.Chapters input) with
  | (_, Some e) => WErr (PkgErr e)
  | (txt, None) =>
      create_and_write fs (str "*-ffmetadata.txt")
        (append_kvpairs ffmetadata_header (kvpairs input)
         ++ match txt with None => [] | Some t => replace_first t ffmetadata_header [] end)
  end.
Proof.
  unfold WriteFFmpegMetadataFile, create_and_write.
  destruct (GetFFmpegChaptersTXT duration (TrackInfo.Chapters input)) as [txt [e|]];
    reflexivity.
Qed.

Lemma WriteFFmpegChaptersTXT_eq fs duration chapters :
  WriteFFmpegChaptersTXT fs duration chapters =
  match GetFFmpegChaptersTXT duration chapters with
  | (_, Some e) => WErr (PkgErr e)
  | (txt, None) =>
      create_and_write fs (str "*-chapters.txt") (match txt with None => [] | Some t => t end)
  end.
Proof.
  unfold WriteFFmpegChaptersTXT, create_and_write.
  destruct (GetFFmpegChaptersTXT duration chapters) as [txt [e|]]; reflexivity.
Qed.

Lemma create_and_write_ok fs pattern data name out :
  create_and_write fs pattern data = WOk name out -> out = data.
Proof.
  unfold create_and_write. destruct (os_CreateTemp fs pattern); [|discriminate].
  destruct (f_Write fs a data); [|discriminate]. congruence.
Qed.

Lemma create_and_write_not_pkg fs pattern data e :
  create_and_write fs pattern data <> WErr (PkgErr e).
Proof.
  unfold create_and_write. destruct (os_CreateTemp fs pattern); [|discriminate].
  destruct (f_Write fs a data); discriminate.
Qed.

Lemma Write_ok_shape fs duration input name out :
  WriteFFmpegMetadataFile fs duration input = WOk name out ->
  exists chaptersTXT,
    out = append_kvpairs ffmetadata_header (kvpairs input) ++ chaptersTXT
    /\ (TrackInfo.Chapters input = [] -> chaptersTXT = []).
Proof.
  rewrite WriteFFmpegMetadataFile_eq.
  destruct (GetFFmpegChaptersTXT duration (TrackInfo.Chapters input)) as [txt [e|]] eqn:E;
    [discriminate|].
  intro H. apply create_and_write_ok in H. subst out. eexists; split; [reflexivity|].
  intro Hc. rewrite Hc, GetFFmpegChaptersTXT_nil in E. injection E as E. subst txt.
  reflexivity.
Qed.

(** Bytes written by [encode_rune]: the rune itself when it is ASCII, else
    bytes with bit 7 set. *)
Lemma In_encode_rune (b r : Z) :
  In b (encode_rune r) -> (b = r /\ 0 <= r < 128) \/ Z.testbit b 7 = true.
Proof.
  unfold encode_rune. destruct ((0 <=? r) && (r <? 128)) eqn:E1.
  - intros [<-|[]]. left. split; [reflexivity|].
    rewrite andb_true_iff, Z.leb_le, Z.ltb_lt in E1. lia.
  - destruct ((0 <=? r) && (r <? 2048)).
    + intros H; repeat destruct H as [<-|H]; try (right; rewrite Z.lor_spec; reflexivity).
      contradiction.
    + cbv zeta. destruct (_ <? 65536);
        intros H; repeat destruct H as [<-|H]; try (right; rewrite Z.lor_spec; reflexivity);
        contradiction.
Qed.

Lemma bit7_not_lf (b : Z) : Z.testbit b 7 = true -> b <> 10 /\ b <> 13.
Proof. intro H; split; intro E; subst b; discriminate H. Qed.

Lemma strip_linefeeds_no_lf (v : bytes) :
  ~ In 10 (strip_linefeeds v) /\ ~ In 13 (strip_linefeeds v).
Proof.
  assert (K : forall b, In b (strip_linefeeds v) -> b <> 10 /\ b <> 13).
  { intros b Hb. unfold strip_linefeeds in Hb.
    apply in_flat_map in Hb as [r [Hr Hb]].
    apply filter_In in Hr as [_ Hr].
    destruct (In_encode_rune b r Hb) as [[-> _]|H7]; [|now apply bit7_not_lf].
    unfold is_linefeed in Hr. apply negb_true_iff, orb_false_iff in Hr as [H1 H2].
    apply Z.eqb_neq in H1, H2. now split. }
  split; intro H; apply K in H; tauto.
Qed.

Lemma In_skipn_l {A} (x : A) k l : In x (skipn k l) -> In x l.
Proof. intro H. rewrite <- (firstn_skipn k l). apply in_or_app. now right. Qed.

Lemma trim_left_skipn f s : exists k, trim_left_fuel f s = skipn k s.
Proof.
  revert s. induction f as [|f IH]; intro s; cbn [trim_left_fuel].
  - now exists O.
  - destruct (space_width s) as [|w]; [now exists O|].
    destruct (IH (skipn (S w) s)) as [k E]. exists (k + S w)%nat.
    now rewrite E, skipn_skipn.
Qed.

Lemma trim_rev_skipn f r : exists k, trim_rev_fuel f r = skipn k r.
Proof.
  revert r. induction f as [|f IH]; intro r; cbn [trim_rev_fuel].
  - now exists O.
  - destruct (space_width_rev r) as [|w]; [now exists O|].
    destruct (IH (skipn (S w) r)) as [k E]. exists (k + S w)%nat.
    now rewrite E, skipn_skipn.
Qed.

Lemma TrimSpace_In (b : Z) (s : bytes) : In b (TrimSpace s) -> In b s.
Proof.
  unfold TrimSpace.
  destruct (trim_left_skipn (List.length s) s) as [k Ek]. rewrite Ek.
  destruct (trim_rev_skipn (List.length (skipn k s)) (rev (skipn k s))) as [j Ej].
  rewrite Ej. intro H. apply in_rev in H. apply In_skipn_l in H.
  apply in_rev in H. now apply In_skipn_l in H.
Qed.

Ltac case_ifs :=
  repeat match goal with |- context [if ?c then _ else _] => destruct c end.

Lemma space_width_le (s : bytes) : (space_width s <= List.length s)%nat.
Proof.
  destruct s as [|b0 [|b1 [|b2 s]]]; cbn [space_width List.length]; case_ifs; lia.
Qed.

Lemma space_width_rev_le (r : bytes) : (space_width_rev r <= List.length r)%nat.
Proof.
  destruct r as [|b0 [|b1 [|b2 r]]]; cbn [space_width_rev List.length]; case_ifs; lia.
Qed.

Lemma trim_left_fuel_done f s :
  (List.length s <= f)%nat -> space_width (trim_left_fuel f s) = O.
Proof.
  revert s. induction f as [|f IH]; intros s Hs; cbn [trim_left_fuel].
  - destruct s; [reflexivity|cbn [List.length] in Hs; lia].
  - destruct (space_width s) as [|w] eqn:E; [exact E|].
    apply IH. pose proof (space_width_le s). rewrite length_skipn. lia.
Qed.

Lemma trim_rev_fuel_done f r :
  (List.length r <= f)%nat -> space_width_rev (trim_rev_fuel f r) = O.
Proof.
  revert r. induction f as [|f IH]; intros r Hr; cbn [trim_rev_fuel].
  - destruct r; [reflexivity|cbn [List.length] in Hr; lia].
  - destruct (space_width_rev r) as [|w] eqn:E; [exact E|].
    apply IH. pose proof (space_width_rev_le r). rewrite length_skipn. lia.
Qed.

(** A prefix of a string that does not start with a space rune does not
    start with one either: [space_width] reads at most three bytes. *)
Lemma space_width_firstn (m : nat) (l : bytes) :
  space_width l = O -> space_width (firstn m l) = O.
Proof.
  revert m. destruct l as [|b0 [|b1 [|b2 l]]]; intros [|[|[|m]]];
    cbn [firstn space_width]; case_ifs; intro H; first [reflexivity | discriminate H].
Qed.

Lemma TrimSpace_trimmed (s : bytes) :
  space_width (TrimSpace s) = O /\ space_width_rev (rev (TrimSpace s)) = O.
Proof.
  unfold TrimSpace.
  set (l := trim_left_fuel (List.length s) s).
  assert (Hl : space_width l = O) by (apply trim_left_fuel_done; lia).
  split.
  - destruct (trim_rev_skipn (List.length l) (rev l)) as [j Ej]. rewrite Ej.
    rewrite skipn_rev, rev_involutive. now apply space_width_firstn.
  - rewrite rev_involutive. apply trim_rev_fuel_done. rewrite length_rev. lia.
Qed.

Lemma sanitize_props (v : bytes) :
  ~ In 10 (sanitize v) /\ ~ In 13 (sanitize v)
  /\ space_width (sanitize v) = O /\ space_width_rev (rev (sanitize v)) = O.
Proof.
  unfold sanitize. destruct (strip_linefeeds_no_lf v) as [H10 H13].
  destruct (TrimSpace_trimmed (strip_linefeeds v)) as [Hl Hr].
  split; [intro H; apply TrimSpace_In in H; tauto|].
  split; [intro H; apply TrimSpace_In in H; tauto|].
  split; assumption.
Qed.

Lemma Format_2006_01_02_nonnil (t : Time) : Format_2006_01_02 t <> [].
Proof.
  unfold Format_2006_01_02. intro E.
  apply (f_equal (@List.length Z)) in E. rewrite !length_app in E.
  cbn [List.length] in E. lia.
Qed.

(** C8 (counterexample): with an empty chapter list GetFFmpegChaptersTXT
    succeeds (no error) but returns a nil slice, so its output has no
    ";FFMETADATA1" marker line; and WriteFFmpegMetadataFile with an empty
    chapter list still fails when the temporary file cannot be written. *)
Lemma chapters_txt_empty_no_marker :
  GetFFmpegChaptersTXT Second [] = (None, None)
  /\ WriteFFmpegMetadataFile full_fs Second blank_track = WErr (IOErr 28).
Proof. split; reflexivity. Qed.

(** C8 (amended): the file written by every successful
    WriteFFmpegMetadataFile starts with the marker line ";FFMETADATA1\n".
    With an empty chapter list it raises no package error: it fails only
    when the temporary file cannot be created or written, and otherwise
    writes the marker line followed by the scalar field lines only (an
    empty chapters section).  GetFFmpegChaptersTXT returns output only for
    a non-empty chapter list, and that output starts with the marker line;
    for an empty list it returns a nil slice and no error. *)
Theorem ffmetadata_marker :
  (forall fs duration input name out,
     WriteFFmpegMetadataFile fs duration input = WOk name out ->
     exists rest, out = ffmetadata_header ++ rest)
  /\ (forall fs duration input,
        TrackInfo.Chapters input = [] ->
        WriteFFmpegMetadataFile fs duration input
        = match os_CreateTemp fs (str "*-ffmetadata.txt") with
          | IOFail n => WErr (IOErr n)
          | IOk name =>
              match f_Write fs name (append_kvpairs ffmetadata_header (kvpairs input)) with
              | IOFail n => WErr (IOErr n)
              | IOk _ => WOk name (append_kvpairs ffmetadata_header (kvpairs input))
              end
          end)
  /\ (forall duration chapters out e,
        GetFFmpegChaptersTXT duration chapters = (Some out, e) ->
        chapters <> [] /\ exists rest, out = ffmetadata_header ++ rest)
  /\ (forall duration, GetFFmpegChaptersTXT duration [] = (None, None)).
Proof.
  split; [|split; [|split]].
  - intros fs duration input name out H.
    destruct (Write_ok_shape _ _ _ _ _ H) as [c [-> _]].
    rewrite append_kvpairs_flat. eexists. now rewrite <- app_assoc.
  - intros fs duration input Hc. rewrite WriteFFmpegMetadataFile_eq.
    rewrite Hc, GetFFmpegChaptersTXT_nil. cbv beta iota zeta.
    now rewrite app_nil_r.
  - exact GetFFmpegChaptersTXT_some.
  - exact GetFFmpegChaptersTXT_nil.
Qed.

Lemma ffmetadata_marker_witness :
  WriteFFmpegMetadataFile ok_fs Second blank_track
  = WOk (str "/tmp/1*-ffmetadata.txt") (append_kvpairs ffmetadata_header (kvpairs blank_track))
  /\ exists rest, append_kvpairs ffmetadata_header (kvpairs blank_track)
                  = ffmetadata_header ++ rest.
Proof.
  assert (H : WriteFFmpegMetadataFile ok_fs Second blank_track
              = WOk (str "/tmp/1*-ffmetadata.txt")
                    (append_kvpairs ffmetadata_header (kvpairs blank_track)))
    by (rewrite (proj1 (proj2 ffmetadata_marker) ok_fs Second blank_track eq_refl);
        reflexivity).
  split; [exact H|]. exact (proj1 ffmetadata_marker _ _ _ _ _ H).
Defined.

(** C9 (counterexample): a title consisting of one space is non-empty
    before trimming, so it is rendered as the line "title=" although it is
    empty after trimming; the copyright line is always present, with the
    synthesized value "Copyright <year> <artist>" (trimmed), whatever the
    Copyright field holds. *)
Lemma ffmetadata_blank_fields :
  WriteFFmpegMetadataFile ok_fs Second blank_track =
  WOk (str "/tmp/1*-ffmetadata.txt")
      (ffmetadata_header ++ str "title=" ++ NL ++ str "copyright=Copyright 0001" ++ NL).
Proof. vm_compute. reflexivity. Qed.

(** C9 (amended): a successful WriteFFmpegMetadataFile writes, after the
    marker line, in this order: a "key=value" line for each of title,
    album, artist, genre, track, comment, language and description whose
    raw value is non-empty (a value that is only whitespace still gets a
    line); always a copyright line whose value is synthesized as
    "Copyright <year of Date> <Artist>" (the Copyright field is not used);
    a date line "YYYY-MM-DD" exactly when Date is not the zero time; then
    the chapters text (empty for no chapters).  Every written value is
    sanitized: it contains no '\n' or '\r' byte and neither starts nor
    ends with a whitespace rune. *)
Theorem ffmetadata_fields (fs : TempFS) (duration : Z) (input : TrackInfo.t)
    (name out : bytes) :
  WriteFFmpegMetadataFile fs duration input = WOk name out ->
  (exists chaptersTXT,
     out = ffmetadata_header
           ++ field_line (str "title") (TrackInfo.Title input)
           ++ field_line (str "album") (TrackInfo.Album input)
           ++ field_line (str "artist") (TrackInfo.Artist input)
           ++ field_line (str "genre") (TrackInfo.Genre input)
           ++ field_line (str "track") (TrackInfo.Track input)
           ++ field_line (str "comment") (TrackInfo.Comment input)
           ++ field_line (str "language") (TrackInfo.Language input)
           ++ field_line (str "description") (TrackInfo.Description input)
           ++ (str "copyright" ++ str "=" ++ sanitize (copyright_value input) ++ NL)
           ++ (if IsZero (TrackInfo.Date input) then []
               else str "date" ++ str "=" ++ sanitize (Format_2006_01_02 (TrackInfo.Date input)) ++ NL)
           ++ chaptersTXT
     /\ (TrackInfo.Chapters input = [] -> chaptersTXT = []))
  /\ (forall v, ~ In 10 (sanitize v) /\ ~ In 13 (sanitize v)
               /\ space_width (sanitize v) = O /\ space_width_rev (rev (sanitize v)) = O).
Proof.
  intro H. split; [|exact sanitize_props].
  destruct (Write_ok_shape _ _ _ _ _ H) as [c [Eo Hc]]. exists c. split; [|exact Hc].
  rewrite Eo, append_kvpairs_flat. unfold kvpairs. rewrite flat_map_app.
  cbn [flat_map fst snd]. rewrite !gate_eq.
  change (str "Copyright " ++ Format_2006 (TrackInfo.Date input) ++ str " "
          ++ TrackInfo.Artist input) with (copyright_value input).
  rewrite (bytes_eqb_neq (copyright_value input)) by (unfold copyright_value; cbn; congruence).
  destruct (IsZero (TrackInfo.Date input)); cbn [negb flat_map fst snd].
  - unfold field_line, sanitize. rewrite !if_negb_nil.
    rewrite ?app_nil_r, <- ?app_assoc. reflexivity.
  - rewrite gate_eq, (bytes_eqb_neq (Format_2006_01_02 _)) by apply Format_2006_01_02_nonnil.
    cbn [negb]. unfold field_line, sanitize. rewrite !if_negb_nil.
    rewrite ?app_nil_r, <- ?app_assoc. reflexivity.
Qed.

Lemma ffmetadata_fields_witness :
  WriteFFmpegMetadataFile ok_fs Second blank_track =
  WOk (str "/tmp/1*-ffmetadata.txt")
      (ffmetadata_header ++ str "title=" ++ NL ++ str "copyright=Copyright 0001" ++ NL)
  /\ ~ In 10 (sanitize (str "a" ++ NL ++ str "b")).
Proof.
  assert (H : WriteFFmpegMetadataFile ok_fs Second blank_track =
              WOk (str "/tmp/1*-ffmetadata.txt")
                  (ffmetadata_header ++ str "title=" ++ NL ++ str "copyright=Copyright 0001" ++ NL))
    by (vm_compute; reflexivity).
  split; [exact H|].
  exact (proj1 (proj2 (ffmetadata_fields _ _ _ _ _ H) (str "a" ++ NL ++ str "b"))).
Defined.

(** * Further properties of the code *)

Lemma AddCHAPAndCTOC_intervals duration tag chapters starts :
  chapters <> [] -> duration <> 0 -> parse_starts chapters = Ok starts ->
  let ivs := intervals (List.length chapters) starts
               (to_uint32 (Z.quot duration Millisecond)) chapters in
  AddCHAPAndCTOC duration tag chapters =
    (tag ++ map (fun iv => (str "CHAP", chap_body (elementID iv) (startMillis iv)
                                          (endMillis iv) (ititle iv))) ivs
         ++ [(str "CTOC", ctoc_body (map elementID ivs))], None).
Proof.
  intros Hne Hd Hp ivs.
  rewrite (AddCHAPAndCTOC_ok duration tag chapters starts Hne Hd Hp).
  unfold ivs, intervals. rewrite !map_mapi_from. reflexivity.
Qed.

Lemma txt_loop_eq n starts millis i chs out :
  txt_loop n starts millis i chs out =
  out ++ flat_map (fun iv => chapter_block (startMillis iv) (endMillis iv) (ititle iv))
            (mapi_from (fun k ch => mkInterval (Itoa (Z.of_nat (k + 1))) (nth k starts 0)
                                      (chapter_end n starts millis k) (Title ch)) i chs).
Proof.
  revert i out. induction chs as [|ch chs IH]; intros i out; cbn [txt_loop mapi_from flat_map].
  - now rewrite app_nil_r.
  - rewrite IH. now rewrite <- app_assoc.
Qed.

Lemma GetFFmpegChaptersTXT_intervals duration chapters starts :
  chapters <> [] -> duration <> 0 -> parse_starts chapters = Ok starts ->
  GetFFmpegChaptersTXT duration chapters =
    (Some (ffmetadata_header
           ++ flat_map (fun iv => chapter_block (startMillis iv) (endMillis iv) (ititle iv))
                (intervals (List.length chapters) starts
                   (to_uint32 (Z.quot duration Millisecond)) chapters)), None).
Proof.
  intros Hne Hd Hp. unfold GetFFmpegChaptersTXT.
  replace (Nat.eqb (List.length chapters) 0) with false
    by (destruct chapters; [congruence | reflexivity]).
  replace (duration =? 0) with false by (symmetry; now apply Z.eqb_neq).
  rewrite Hp, txt_loop_eq. reflexivity.
Qed.

(** GetFFmpegChaptersTXT and AddCHAPAndCTOC agree: they return the same
    error on every input, and on success the chapters text lists, block by
    block, the same intervals (start, end, title) that the CHAP frames
    encode, in the same order. *)
Theorem chapters_txt_agrees_with_frames duration tag chapters :
  snd (GetFFmpegChaptersTXT duration chapters) = snd (AddCHAPAndCTOC duration tag chapters)
  /\ (forall starts, chapters <> [] -> duration <> 0 -> parse_starts chapters = Ok starts ->
      let ivs := intervals (List.length chapters) starts
                   (to_uint32 (Z.quot duration Millisecond)) chapters in
      GetFFmpegChaptersTXT duration chapters =
        (Some (ffmetadata_header
               ++ flat_map (fun iv => chapter_block (startMillis iv) (endMillis iv) (ititle iv)) ivs),
         None)
      /\ AddCHAPAndCTOC duration tag chapters =
        (tag ++ map (fun iv => (str "CHAP", chap_body (elementID iv) (startMillis iv)
                                              (endMillis iv) (ititle iv))) ivs
             ++ [(str "CTOC", ctoc_body (map elementID ivs))], None)).
Proof.
  split.
  - destruct (AddCHAPAndCTOC_cases duration tag chapters)
      as [[E Hc]|[[E [Hne Hd]]|[[E [Hne [Hd Hp]]]|[starts [Hne [Hd [Hp E]]]]]]];
    destruct (GetFFmpegChaptersTXT_cases duration chapters)
      as [[E' H']|[[E' [Hne' Hd']]|[[E' [Hne' [Hd' Hp']]]|[starts' [Hne' [Hd' [Hp' E']]]]]]];
    rewrite ?E, ?E'; try reflexivity; try congruence.
  - intros starts Hne Hd Hp. split.
    + now apply GetFFmpegChaptersTXT_intervals.
    + now apply AddCHAPAndCTOC_intervals.
Qed.

Lemma chapters_txt_agrees_with_frames_witness :
  GetFFmpegChaptersTXT (30 * Second) test_chapters =
    (Some (ffmetadata_header
           ++ flat_map (fun iv => chapter_block (startMillis iv) (endMillis iv) (ititle iv))
                (intervals 3 [0; 10000; 20500] (to_uint32 (Z.quot (30 * Second) Millisecond))
                   test_chapters)), None).
Proof.
  apply (proj2 (chapters_txt_agrees_with_frames (30 * Second) [] test_chapters)
           [0; 10000; 20500]); [discriminate | vm_compute; discriminate | reflexivity].
Defined.

Lemma replace_first_prefix (old rest : bytes) :
  replace_first (old ++ rest) old [] = rest.
Proof.
  assert (E : forall s, replace_first s old [] =
     if bytes_eqb (firstn (List.length old) s) old then [] ++ skipn (List.length old) s
     else match s with [] => [] | c :: s' => c :: replace_first s' old [] end)
    by (intros [|c s]; reflexivity).
  rewrite E. rewrite firstn_app, Nat.sub_diag, firstn_O, app_nil_r, firstn_all.
  unfold bytes_eqb. destruct (list_eq_dec Z.eq_dec old old) as [_|C]; [|congruence].
  rewrite skipn_app, Nat.sub_diag, skipn_all. reflexivity.
Qed.

(** WriteFFmpegMetadataFile returns a package error exactly when
    GetFFmpegChaptersTXT does, with the same error; when the chapters are
    valid, it creates the temporary file and writes into it the scalar lines
    followed by exactly the [CHAPTER] blocks of the intervals (the marker
    line of the chapters text removed), its only errors then being those of
    the creation and the write. *)
Theorem WriteFFmpegMetadataFile_chapters fs duration input :
  (forall e, WriteFFmpegMetadataFile fs duration input = WErr (PkgErr e)
             <-> snd (GetFFmpegChaptersTXT duration (TrackInfo.Chapters input)) = Some e)
  /\ (forall starts, TrackInfo.Chapters input <> [] -> duration <> 0 ->
      parse_starts (TrackInfo.Chapters input) = Ok starts ->
      WriteFFmpegMetadataFile fs duration input =
      create_and_write fs (str "*-ffmetadata.txt")
        (append_kvpairs ffmetadata_header (kvpairs input)
         ++ flat_map (fun iv => chapter_block (startMillis iv) (endMillis iv) (ititle iv))
              (intervals (List.length (TrackInfo.Chapters input)) starts
                 (to_uint32 (Z.quot duration Millisecond)) (TrackInfo.Chapters input)))).
Proof.
  rewrite WriteFFmpegMetadataFile_eq. split.
  - intros e.
    destruct (GetFFmpegChaptersTXT duration (TrackInfo.Chapters input)) as [txt [e'|]];
      cbn [snd]; split; intro H; try congruence.
    + exfalso. exact (create_and_write_not_pkg _ _ _ _ H).
  - intros starts Hne Hd Hp.
    rewrite (GetFFmpegChaptersTXT_intervals _ _ _ Hne Hd Hp).
    cbv beta iota zeta. now rewrite replace_first_prefix.
Qed.

Lemma WriteFFmpegMetadataFile_chapters_witness :
  WriteFFmpegMetadataFile ok_fs (30 * Second) test_track =
      WOk (str "/tmp/1*-ffmetadata.txt")
          (append_kvpairs ffmetadata_header (kvpairs test_track)
           ++ flat_map (fun iv => chapter_block (startMillis iv) (endMillis iv) (ititle iv))
                (intervals 3 [0; 10000; 20500]
                   (to_uint32 (Z.quot (30 * Second) Millisecond)) test_chapters)).
Proof.
  rewrite (proj2 (WriteFFmpegMetadataFile_chapters ok_fs (30 * Second) test_track)
             [0; 10000; 20500]);
    [reflexivity | discriminate | vm_compute; discriminate | reflexivity].
Defined.

(** WriteFFmpegChaptersTXT writes exactly the text of GetFFmpegChaptersTXT
    and returns a package error exactly when it does, with the same error;
    its other errors are those of creating and writing the temporary file.
    For an empty chapter list it raises no package error and, when the
    file is created and written, leaves it empty, without the
    ";FFMETADATA1" marker line. *)
Theorem WriteFFmpegChaptersTXT_behaviour fs duration chapters :
  WriteFFmpegChaptersTXT fs duration [] = create_and_write fs (str "*-chapters.txt") []
  /\ (forall e, WriteFFmpegChaptersTXT fs duration chapters = WErr (PkgErr e)
                <-> snd (GetFFmpegChaptersTXT duration chapters) = Some e)
  /\ (forall t, GetFFmpegChaptersTXT duration chapters = (Some t, None) ->
                WriteFFmpegChaptersTXT fs duration chapters
                = create_and_write fs (str "*-chapters.txt") t)
  /\ (forall name out, chapters <> [] ->
                       WriteFFmpegChaptersTXT fs duration chapters = WOk name out ->
                       exists rest, out = ffmetadata_header ++ rest).
Proof.
  split; [reflexivity|]. rewrite WriteFFmpegChaptersTXT_eq.
  split; [|split].
  - intros e. destruct (GetFFmpegChaptersTXT duration chapters) as [txt [e'|]];
      cbn [snd]; split; intro H; try congruence.
    exfalso. exact (create_and_write_not_pkg _ _ _ _ H).
  - intros t E. rewrite E. reflexivity.
  - intros name out Hne.
    destruct (GetFFmpegChaptersTXT duration chapters) as [[t|] [e'|]] eqn:E;
      try discriminate.
    + intro H. apply create_and_write_ok in H. subst out.
      exact (proj2 (GetFFmpegChaptersTXT_some _ _ _ _ E)).
    + exfalso. destruct (GetFFmpegChaptersTXT_cases duration chapters)
        as [[E' H']|[[E' _]|[[E' _]|[starts [_ [_ [_ E']]]]]]]; congruence.
Qed.

Lemma WriteFFmpegChaptersTXT_behaviour_witness :
  WriteFFmpegChaptersTXT ok_fs Second test_chapters = WErr (PkgErr ErrBadChapterStartTime)
  <-> snd (GetFFmpegChaptersTXT Second test_chapters) = Some ErrBadChapterStartTime.
Proof. exact (proj1 (proj2 (WriteFFmpegChaptersTXT_behaviour ok_fs Second test_chapters))
                ErrBadChapterStartTime). Defined.

Lemma uint_digits_acc (u : Decimal.uint) (acc : positive) :
  Z.pos (Pos.of_uint_acc u acc)
  = fold_left (fun acc c => acc * 10 + (c - 48)) (uint_digits u) (Z.pos acc).
Proof.
  revert acc. induction u; intros acc; cbn [Pos.of_uint_acc uint_digits fold_left];
    rewrite ?IHu; f_equal; lia.
Qed.

Lemma uint_digits_value (u : Decimal.uint) :
  digit_value (uint_digits u) = Z.of_uint u.
Proof.
  unfold digit_value, Z.of_uint.
  induction u; cbn [uint_digits fold_left Pos.of_uint Z.of_N];
    rewrite ?uint_digits_acc; try reflexivity.
  rewrite <- IHu. reflexivity.
Qed.

Lemma uint_digits_isDigit (u : Decimal.uint) :
  Forall (fun c => isDigitB c = true) (uint_digits u).
Proof. induction u; cbn [uint_digits]; constructor; auto. Qed.

(** strconv.Itoa of a non-negative number is a non-empty string of ASCII
    digits whose decimal value is the number itself; hence it is
    injective on non-negative numbers. *)
Lemma Itoa_decimal (z : Z) :
  0 <= z ->
  Itoa z <> [] /\ Forall (fun c => isDigitB c = true) (Itoa z) /\ digit_value (Itoa z) = z.
Proof.
  intros Hz. unfold Itoa.
  assert (Hv : forall u, Z.to_int z = Decimal.Pos u -> digit_value (uint_digits u) = z).
  { intros u Hu. rewrite uint_digits_value.
    rewrite <- (DecimalZ.of_to z), Hu. reflexivity. }
  destruct (Z.to_int z) as [u|u] eqn:Hu.
  - split; [|split; [apply uint_digits_isDigit | now apply Hv]].
    intro E. specialize (Hv u eq_refl). rewrite E in Hv. cbn in Hv. subst z.
    cbn in Hu. injection Hu as <-. cbn in E. congruence.
  - destruct z; cbn in Hu; try discriminate Hu; lia.
Qed.


Lemma Itoa_inj (a b : Z) : 0 <= a -> 0 <= b -> Itoa a = Itoa b -> a = b.
Proof.
  intros Ha Hb E.
  destruct (Itoa_decimal a Ha) as [_ [_ Ea]]. destruct (Itoa_decimal b Hb) as [_ [_ Eb]].
  congruence.
Qed.

Lemma isDigit_not_nul (id : bytes) :
  Forall (fun c => isDigitB c = true) id -> ~ In 0 id.
Proof.
  intros H Hin. rewrite Forall_forall in H. specialize (H 0 Hin). discriminate H.
Qed.

Lemma NoDup_Itoa_seq (n : nat) :
  NoDup (map (fun k => Itoa (Z.of_nat (k + 1))) (seq 0 n)).
Proof.
  apply NoDup_map_NoDup_ForallPairs; [|apply seq_NoDup].
  intros a b _ _ E. apply Itoa_inj in E; lia.
Qed.

(** The element ids of a successful AddCHAPAndCTOC call, used by its CHAP
    frames and listed in its CTOC frame, are "1", "2", ..., "N": pairwise
    distinct, non-empty strings of ASCII digits, so none contains the NUL
    byte that terminates it. *)
Theorem chapter_ids_distinct duration tag chapters starts :
  chapters <> [] -> duration <> 0 -> parse_starts chapters = Ok starts ->
  let ivs := intervals (List.length chapters) starts
               (to_uint32 (Z.quot duration Millisecond)) chapters in
  AddCHAPAndCTOC duration tag chapters =
    (tag ++ map (fun iv => (str "CHAP", chap_body (elementID iv) (startMillis iv)
                                          (endMillis iv) (ititle iv))) ivs
         ++ [(str "CTOC", ctoc_body (map elementID ivs))], None)
  /\ map elementID ivs = map (fun k => Itoa (Z.of_nat (k + 1))) (seq 0 (List.length chapters))
  /\ NoDup (map elementID ivs)
  /\ Forall (fun id => id <> [] /\ Forall (fun c => isDigitB c = true) id /\ ~ In 0 id)
       (map elementID ivs).
Proof.
  intros Hne Hd Hp ivs.
  assert (Hids : map elementID ivs
                 = map (fun k => Itoa (Z.of_nat (k + 1))) (seq 0 (List.length chapters))).
  { unfold ivs, intervals. rewrite map_mapi_from. cbn [elementID].
    apply (mapi_from_seq (fun k => Itoa (Z.of_nat (k + 1)))). }
  split; [now apply AddCHAPAndCTOC_intervals|].
  split; [exact Hids|]. rewrite Hids. split; [apply NoDup_Itoa_seq|].
  apply Forall_forall. intros id Hin. apply in_map_iff in Hin as [k [<- _]].
  destruct (Itoa_decimal (Z.of_nat (k + 1)) ltac:(lia)) as [H1 [H2 _]].
  split; [exact H1 | split; [exact H2 | now apply isDigit_not_nul]].
Qed.

Lemma chapter_ids_distinct_witness :
  NoDup (map elementID (intervals 3 [0; 10000; 20500]
                          (to_uint32 (Z.quot (30 * Second) Millisecond)) test_chapters)).
Proof.
  exact (proj1 (proj2 (proj2 (chapter_ids_distinct (30 * Second) [] test_chapters
                               [0; 10000; 20500] ltac:(discriminate)
                               ltac:(vm_compute; discriminate) eq_refl)))).
Defined.

Lemma split_at_nul_app (id rest : bytes) :
  ~ In 0 id -> split_at_nul (id ++ 0 :: rest) = (id, 0 :: rest).
Proof.
  induction id as [|b id IH]; intros H; [reflexivity|].
  cbn [app split_at_nul].
  replace (b =? 0) with false by (symmetry; apply Z.eqb_neq; intro; subst; apply H; now left).
  rewrite IH by (intro; apply H; now right). reflexivity.
Qed.

(** Reading a CHAP body back: when the element id has no NUL byte and the
    title frame is shorter than 2^32 bytes, an ID3v2.4 reader recovers the
    element id, the start and end (as uint32), the two 0xFFFFFFFF offsets,
    and one embedded "TIT2" frame with flags 0 0 whose size field is the
    exact length of its payload, the TextFrame of the title. *)
Theorem chap_body_read_back (id : bytes) (start end_ : Z) (title : bytes) :
  ~ In 0 id -> Z.of_nat (List.length (TextFrame title)) < 2 ^ 32 ->
  read_chap_body (chap_body id start end_ title) =
  Some (mkChapFields id (to_uint32 start) (to_uint32 end_) (2 ^ 32 - 1) (2 ^ 32 - 1)
          (str "TIT2") [0; 0] (TextFrame title)).
Proof.
  intros Hid Hlen. unfold chap_body. rewrite app_nil_l, <- !app_assoc, !PutUint32_be32.
  unfold read_chap_body. cbn [app]. rewrite split_at_nul_app by exact Hid.
  cbv beta iota. rewrite read_u32_be32. cbv beta iota. rewrite read_u32_be32.
  cbv beta iota. cbn [read_u32 app skipn firstn str]. cbv beta iota.
  rewrite read_u32_be32. cbv beta iota. cbn [firstn skipn app List.length].
  assert (E : to_uint32 (to_uint32 (Z.of_nat (List.length (TextFrame title))))
              = Z.of_nat (List.length (TextFrame title))).
  { unfold to_uint32. rewrite Z.mod_mod by lia. apply Z.mod_small. lia. }
  rewrite E, Z.eqb_refl. reflexivity.
Qed.

Lemma chap_body_read_back_witness :
  read_chap_body (chap_body (str "1") 0 10000 (str "Chapter 1")) =
  Some (mkChapFields (str "1") (to_uint32 0) (to_uint32 10000) (2 ^ 32 - 1) (2 ^ 32 - 1)
          (str "TIT2") [0; 0] (TextFrame (str "Chapter 1"))).
Proof.
  apply chap_body_read_back.
  - vm_compute. intros [H|[]]. discriminate H.
  - vm_compute. reflexivity.
Defined.

Lemma map_id_iff {A} (f : A -> A) (l : list A) :
  map f l = l <-> Forall (fun x => f x = x) l.
Proof.
  induction l as [|x l IH]; cbn [map]; split; intro H; auto.
  - injection H as H1 H2. constructor; [exact H1 | now apply IH].
  - inversion H; subst. f_equal; [assumption | now apply IH].
Qed.

Lemma utf16le_units_low (rs : list Z) :
  utf16le_units (flat_map (fun r => [to_byte r; 0]) rs) = map (fun r => r mod 256) rs.
Proof.
  induction rs as [|r rs IH]; [reflexivity|].
  cbn [flat_map app utf16le_units map]. rewrite IH, to_byte_mod. f_equal. ring.
Qed.

(** Reading back a TextFrame as UTF-16LE gives the low byte of each
    character's code point; the title is recovered exactly if and only if
    every character is in the range U+0000..U+00FF. *)
Theorem TextFrame_read_back (title : bytes) :
  read_text_frame (TextFrame title) = Some (map (fun r => r mod 256) (runes title))
  /\ (read_text_frame (TextFrame title) = Some (runes title)
      <-> Forall (fun r => 0 <= r < 256) (runes title)).
Proof.
  assert (E : read_text_frame (TextFrame title) = Some (map (fun r => r mod 256) (runes title))).
  { rewrite TextFrame_flat. cbn [app read_text_frame]. cbv beta iota.
    now rewrite utf16le_units_low. }
  split; [exact E|]. rewrite E. split.
  - intro H. injection H as H. apply map_id_iff in H.
    eapply Forall_impl; [|exact H]. cbn beta. intros r Hr. rewrite <- Hr.
    apply Z.mod_pos_bound. lia.
  - intro H. f_equal. apply map_id_iff.
    eapply Forall_impl; [|exact H]. cbn beta. intros r Hr. now apply Z.mod_small.
Qed.

Lemma TextFrame_read_back_witness :
  read_text_frame (TextFrame (str "Hi")) = Some (runes (str "Hi")).
Proof.
  apply (proj2 (proj2 (TextFrame_read_back (str "Hi")))).
  vm_compute. repeat constructor; discriminate.
Defined.

Lemma set_if_eq (tag : list TagCall) (v : bytes) (call : bytes -> TagCall) :
  set_if tag v call = tag ++ (if bytes_eqb v [] then [] else [call v]).
Proof.
  unfold set_if. rewrite gate_eq. destruct (bytes_eqb v []); cbn [negb].
  - now rewrite app_nil_r.
  - reflexivity.
Qed.

Lemma AddCHAPAndCTOC_err_frames duration chapters e :
  snd (AddCHAPAndCTOC duration [] chapters) = Some e ->
  fst (AddCHAPAndCTOC duration [] chapters) = [].
Proof.
  destruct (AddCHAPAndCTOC_cases duration [] chapters)
    as [[E _]|[[E _]|[[E _]|[starts [_ [_ [_ E]]]]]]]; rewrite ?E; cbn; congruence.
Qed.

(** After both outside reads succeed, WriteID3v2Tag is its cover stage and
    chapter stage run on [field_calls input]. *)
Lemma WriteID3v2Tag_opened env mp3file input di u :
  mp3duration_ReadFile env mp3file = IOk di -> id3v2_Open env mp3file = IOk u ->
  WriteID3v2Tag env mp3file input =
  match (if bytes_eqb (TrackInfo.CoverJPEG input) [] then (field_calls input, None)
         else AddCoverJPEG env (field_calls input) (TrackInfo.CoverJPEG input)) with
  | (tag, Some e) => (tag ++ [Close], Some e)
  | (tag, None) =>
      match (if Nat.ltb 0 (List.length (TrackInfo.Chapters input))
             then AddCHAPAndCTOC_calls di tag (TrackInfo.Chapters input) else (tag, None)) with
      | (tag, Some e) => (tag ++ [Close], Some (PkgErr e))
      | (tag, None) => (tag ++ [Save; Close], save_result env)
      end
  end.
Proof.
  intros Hm Ho. unfold WriteID3v2Tag. rewrite Hm, Ho.
  rewrite !set_if_eq, gate_eq, <- !app_assoc.
  destruct (bytes_eqb (TrackInfo.CoverJPEG input) []); reflexivity.
Qed.

(** When WriteID3v2Tag succeeds, both outside reads succeeded and it made
    exactly these calls, in order: SetVersion 4 and a setter for each
    non-empty title, album, artist, genre and year ([field_calls]); for a
    non-empty CoverJPEG path, one front-cover JPEG picture holding the
    file's bytes; the CHAP and CTOC frames of AddCHAPAndCTOC for the
    measured duration (none without chapters); then Save and Close, Save
    having succeeded. *)
Theorem WriteID3v2Tag_success env mp3file input calls :
  WriteID3v2Tag env mp3file input = (calls, None) ->
  exists di u imgData frames,
    mp3duration_ReadFile env mp3file = IOk di
    /\ id3v2_Open env mp3file = IOk u
    /\ (TrackInfo.CoverJPEG input <> [] ->
        os_ReadFile env (TrackInfo.CoverJPEG input) = IOk imgData)
    /\ AddCHAPAndCTOC di [] (TrackInfo.Chapters input) = (frames, None)
    /\ tag_Save env = IOk tt
    /\ calls = field_calls input
               ++ (if bytes_eqb (TrackInfo.CoverJPEG input) [] then [] else [cover_call imgData])
               ++ map (fun f => AddFrameCall (fst f) (snd f)) frames
               ++ [Save; Close].
Proof.
  intros H.
  destruct (mp3duration_ReadFile env mp3file) as [di|n] eqn:Hm;
    [|unfold WriteID3v2Tag in H; rewrite Hm in H; discriminate].
  destruct (id3v2_Open env mp3file) as [u|n] eqn:Ho;
    [|unfold WriteID3v2Tag in H; rewrite Hm, Ho in H; discriminate].
  rewrite (WriteID3v2Tag_opened env mp3file input di u Hm Ho) in H.
  set (cov := TrackInfo.CoverJPEG input) in *.
  set (chs := TrackInfo.Chapters input) in *.
  assert (Hch : forall tag calls',
    match (if Nat.ltb 0 (List.length chs) then AddCHAPAndCTOC_calls di tag chs
           else (tag, None)) with
    | (tag, Some e) => (tag ++ [Close], Some (PkgErr e))
    | (tag, None) => (tag ++ [Save; Close], save_result env)
    end = (calls', None) ->
    exists frames, AddCHAPAndCTOC di [] chs = (frames, None) /\ tag_Save env = IOk tt
      /\ calls' = tag ++ map (fun f => AddFrameCall (fst f) (snd f)) frames ++ [Save; Close]).
  { intros tag calls' Hc.
    assert (Hs : tag_Save env = IOk tt).
    { destruct (Nat.ltb 0 (List.length chs));
        [destruct (AddCHAPAndCTOC_calls di tag chs) as [t [e|]]|];
        try discriminate Hc; unfold save_result in Hc;
        destruct (tag_Save env) as [[]|n]; congruence. }
    destruct (Nat.ltb 0 (List.length chs)) eqn:El.
    - unfold AddCHAPAndCTOC_calls in Hc.
      destruct (AddCHAPAndCTOC di [] chs) as [frames [e|]] eqn:Ea; [discriminate Hc|].
      exists frames. split; [reflexivity | split; [exact Hs|]].
      injection Hc as <-. now rewrite <- app_assoc.
    - exists []. destruct chs; [|discriminate El].
      split; [reflexivity | split; [exact Hs|]]. injection Hc as <-. reflexivity. }
  destruct (bytes_eqb cov []) eqn:Ec.
  - destruct (Hch _ _ H) as [frames [Ha [Hs ->]]].
    exists di, u, [], frames. repeat split; try assumption.
    + intros Hne. apply bytes_eqb_neq in Hne. congruence.
  - unfold AddCoverJPEG in H.
    destruct (os_ReadFile env cov) as [img|n] eqn:Er; [|discriminate H].
    destruct (Hch _ _ H) as [frames [Ha [Hs ->]]].
    exists di, u, img, frames. repeat split; try assumption.
    unfold cover_call. now rewrite <- !app_assoc.
Qed.

Lemma WriteID3v2Tag_success_witness :
  let input := TrackInfo.mk (str "Hello world") (str "Galaxy") (str "Universe") (str "Podcast")
                 [] (mkTime 2024 9 17 15 38 0 0) (str "5") [] [] [] [] (str "cover.jpg")
                 test_chapters in
  let env := ok_env (30 * Second) (str "JPEG") in
  exists di u imgData frames,
    mp3duration_ReadFile env (str "a.mp3") = IOk di
    /\ id3v2_Open env (str "a.mp3") = IOk u
    /\ (TrackInfo.CoverJPEG input <> [] ->
        os_ReadFile env (TrackInfo.CoverJPEG input) = IOk imgData)
    /\ AddCHAPAndCTOC di [] (TrackInfo.Chapters input) = (frames, None)
    /\ tag_Save env = IOk tt
    /\ fst (WriteID3v2Tag env (str "a.mp3") input) =
       field_calls input
       ++ (if bytes_eqb (TrackInfo.CoverJPEG input) [] then [] else [cover_call imgData])
       ++ map (fun f => AddFrameCall (fst f) (snd f)) frames
       ++ [Save; Close].
Proof.
  intros input env. apply WriteID3v2Tag_success. vm_compute. reflexivity.
Defined.

Lemma no_save_close_map (frames : Tag) :
  ~ In Save (map (fun f => AddFrameCall (fst f) (snd f)) frames)
  /\ ~ In Close (map (fun f => AddFrameCall (fst f) (snd f)) frames).
Proof. split; intros Hin; apply in_map_iff in Hin as [f [Hf _]]; discriminate Hf. Qed.

Lemma field_calls_shape (input : TrackInfo.t) :
  exists pre, field_calls input = SetVersion 4 :: pre /\ ~ In Save pre /\ ~ In Close pre.
Proof.
  unfold field_calls. eexists. split; [reflexivity|].
  split; intros Hin; repeat (apply in_app_iff in Hin as [Hin|Hin]);
    repeat match type of Hin with
           | In _ (if ?b then _ else _) => destruct b
           end;
    cbn in Hin; intuition discriminate.
Qed.

Lemma chapters_stage (di : Z) (tag : list TagCall) (chs : list Chapter) :
  (if Nat.ltb 0 (List.length chs) then AddCHAPAndCTOC_calls di tag chs else (tag, None))
  = (tag ++ map (fun f => AddFrameCall (fst f) (snd f)) (fst (AddCHAPAndCTOC di [] chs)),
     snd (AddCHAPAndCTOC di [] chs)).
Proof.
  destruct chs as [|ch chs].
  - cbn. now rewrite app_nil_r.
  - cbn [List.length Nat.ltb Nat.leb]. unfold AddCHAPAndCTOC_calls.
    destruct (AddCHAPAndCTOC di [] (ch :: chs)); reflexivity.
Qed.

(** WriteID3v2Tag's calls and result, by cause.  A failing MP3 duration
    read or tag open returns that error before any tag call.  Once both
    succeed the calls start with SetVersion 4 and end with one deferred
    Close, and exactly one of three things happens: the non-empty CoverJPEG
    file cannot be read, and its error is returned; or the cover stage
    succeeds (no cover, or its file read) but AddCHAPAndCTOC fails, and its
    error is returned; or both succeed, and then (only then) Save is
    called, once, just before Close, and the result is Save's outcome.  No
    Save or Close occurs anywhere else. *)
Theorem WriteID3v2Tag_call_order env mp3file input :
  (forall n, mp3duration_ReadFile env mp3file = IOFail n ->
     WriteID3v2Tag env mp3file input = ([], Some (IOErr n)))
  /\ (forall di n, mp3duration_ReadFile env mp3file = IOk di ->
        id3v2_Open env mp3file = IOFail n ->
        WriteID3v2Tag env mp3file input = ([], Some (IOErr n)))
  /\ (forall di u, mp3duration_ReadFile env mp3file = IOk di ->
        id3v2_Open env mp3file = IOk u ->
        (forall n, TrackInfo.CoverJPEG input <> [] ->
           os_ReadFile env (TrackInfo.CoverJPEG input) = IOFail n ->
           exists pre, ~ In Save pre /\ ~ In Close pre
             /\ WriteID3v2Tag env mp3file input = (SetVersion 4 :: pre ++ [Close], Some (IOErr n)))
        /\ (forall e, (TrackInfo.CoverJPEG input = []
                       \/ exists img, os_ReadFile env (TrackInfo.CoverJPEG input) = IOk img) ->
              snd (AddCHAPAndCTOC di [] (TrackInfo.Chapters input)) = Some e ->
              exists pre, ~ In Save pre /\ ~ In Close pre
                /\ WriteID3v2Tag env mp3file input
                   = (SetVersion 4 :: pre ++ [Close], Some (PkgErr e)))
        /\ ((TrackInfo.CoverJPEG input = []
             \/ exists img, os_ReadFile env (TrackInfo.CoverJPEG input) = IOk img) ->
            snd (AddCHAPAndCTOC di [] (TrackInfo.Chapters input)) = None ->
            exists pre, ~ In Save pre /\ ~ In Close pre
              /\ WriteID3v2Tag env mp3file input
                 = (SetVersion 4 :: pre ++ [Save; Close], save_result env))).
Proof.
  split; [|split].
  - intros n Hm. unfold WriteID3v2Tag. now rewrite Hm.
  - intros di n Hm Ho. unfold WriteID3v2Tag. now rewrite Hm, Ho.
  - intros di u Hm Ho. rewrite (WriteID3v2Tag_opened env mp3file input di u Hm Ho).
    destruct (field_calls_shape input) as [pre [Hf [Hs Hc]]]. rewrite Hf.
    assert (Hcov : (TrackInfo.CoverJPEG input = []
                    \/ exists img, os_ReadFile env (TrackInfo.CoverJPEG input) = IOk img) ->
      exists post, ~ In Save post /\ ~ In Close post /\
        (if bytes_eqb (TrackInfo.CoverJPEG input) [] then (SetVersion 4 :: pre, None)
         else AddCoverJPEG env (SetVersion 4 :: pre) (TrackInfo.CoverJPEG input))
        = (SetVersion 4 :: pre ++ post, None)).
    { intros Hok. destruct (bytes_eqb (TrackInfo.CoverJPEG input) []) eqn:Ec.
      - exists []. rewrite app_nil_r. intuition.
      - destruct Hok as [Hn|[img Hr]].
        + rewrite Hn in Ec. discriminate Ec.
        + unfold AddCoverJPEG. rewrite Hr. exists [cover_call img]. unfold cover_call.
          split; [cbn; intuition discriminate|split; [cbn; intuition discriminate|]].
          reflexivity. }
    destruct (no_save_close_map (fst (AddCHAPAndCTOC di [] (TrackInfo.Chapters input))))
      as [Hs'' Hc''].
    split; [|split].
    + intros n Hne Hr. rewrite (bytes_eqb_neq _ Hne). unfold AddCoverJPEG. rewrite Hr.
      exists pre. auto.
    + intros e Hok He. destruct (Hcov Hok) as [post [Hs' [Hc' E]]]. rewrite E.
      cbv iota. rewrite chapters_stage, He.
      exists (pre ++ post ++ map (fun f => AddFrameCall (fst f) (snd f))
                                  (fst (AddCHAPAndCTOC di [] (TrackInfo.Chapters input)))).
      rewrite <- !app_assoc. cbn [app]. rewrite <- !app_assoc.
      split; [rewrite !in_app_iff; intuition|split; [rewrite !in_app_iff; intuition|reflexivity]].
    + intros Hok He. destruct (Hcov Hok) as [post [Hs' [Hc' E]]]. rewrite E.
      cbv iota. rewrite chapters_stage, He.
      exists (pre ++ post ++ map (fun f => AddFrameCall (fst f) (snd f))
                                  (fst (AddCHAPAndCTOC di [] (TrackInfo.Chapters input)))).
      rewrite <- !app_assoc. cbn [app]. rewrite <- !app_assoc.
      split; [rewrite !in_app_iff; intuition|split; [rewrite !in_app_iff; intuition|reflexivity]].
Qed.

Lemma WriteID3v2Tag_call_order_witness :
  let input := TrackInfo.mk (str "Hello world") (str "Galaxy") (str "Universe") (str "Podcast")
                 [] (mkTime 2024 9 17 15 38 0 0) (str "5") [] [] [] [] (str "cover.jpg")
                 test_chapters in
  let env := ok_env (30 * Second) (str "JPEG") in
  WriteID3v2Tag (mkEnv (fun _ => IOFail 2) (fun _ => IOk tt) (fun _ => IOk []) (IOk tt))
    (str "a.mp3") input = ([], Some (IOErr 2))
  /\ exists pre, ~ In Save pre /\ ~ In Close pre
       /\ WriteID3v2Tag env (str "a.mp3") input
          = (SetVersion 4 :: pre ++ [Save; Close], save_result env).
Proof.
  intros input env. split.
  - apply (proj1 (WriteID3v2Tag_call_order
                    (mkEnv (fun _ => IOFail 2) (fun _ => IOk tt) (fun _ => IOk []) (IOk tt))
                    (str "a.mp3") input) 2%nat).
    reflexivity.
  - apply (proj2 (proj2 (proj2 (proj2 (WriteID3v2Tag_call_order env (str "a.mp3") input))
                           (30 * Second) tt eq_refl eq_refl))).
    + right. exists (str "JPEG"). reflexivity.
    + vm_compute. reflexivity.
Defined.

(** Once the MP3 is read and the tag opened, a failing step stops
    WriteID3v2Tag before Save: if the non-empty CoverJPEG file cannot be
    read, the setters of [field_calls] and Close are the only calls and the
    read error is returned; if AddCHAPAndCTOC fails, no CHAP or CTOC frame
    is added, Save is not called, and its error is returned. *)
Theorem WriteID3v2Tag_stage_errors env mp3file input di u :
  mp3duration_ReadFile env mp3file = IOk di -> id3v2_Open env mp3file = IOk u ->
  (forall n, TrackInfo.CoverJPEG input <> [] ->
     os_ReadFile env (TrackInfo.CoverJPEG input) = IOFail n ->
     WriteID3v2Tag env mp3file input = (field_calls input ++ [Close], Some (IOErr n)))
  /\ (forall e imgData, snd (AddCHAPAndCTOC di [] (TrackInfo.Chapters input)) = Some e ->
      (TrackInfo.CoverJPEG input = []
       \/ os_ReadFile env (TrackInfo.CoverJPEG input) = IOk imgData) ->
      WriteID3v2Tag env mp3file input =
        (field_calls input
         ++ (if bytes_eqb (TrackInfo.CoverJPEG input) [] then [] else [cover_call imgData])
         ++ [Close], Some (PkgErr e))).
Proof.
  intros Hm Ho. rewrite (WriteID3v2Tag_opened env mp3file input di u Hm Ho). split.
  - intros n Hne Hr. rewrite (bytes_eqb_neq _ Hne). unfold AddCoverJPEG. now rewrite Hr.
  - intros e img He Hc.
    assert (Hl : Nat.ltb 0 (List.length (TrackInfo.Chapters input)) = true).
    { destruct (TrackInfo.Chapters input); [|reflexivity].
      cbn in He. discriminate He. }
    rewrite Hl. unfold AddCHAPAndCTOC_calls.
    pose proof (AddCHAPAndCTOC_err_frames _ _ _ He) as Hf.
    destruct (AddCHAPAndCTOC di [] (TrackInfo.Chapters input)) as [frames e'].
    cbn in He, Hf. subst frames e'. cbn [map].
    destruct Hc as [Hc|Hc].
    + rewrite Hc. replace (bytes_eqb [] []) with true by reflexivity.
      cbv iota. now rewrite !app_nil_r.
    + destruct (bytes_eqb (TrackInfo.CoverJPEG input) []) eqn:Ec.
      * now rewrite !app_nil_r.
      * unfold AddCoverJPEG. rewrite Hc. unfold cover_call.
        now rewrite app_nil_r, <- app_assoc.
Qed.

Lemma WriteID3v2Tag_stage_errors_witness :
  let input := TrackInfo.mk (str "Hello world") (str "Galaxy") (str "Universe") (str "Podcast")
                 [] (mkTime 2024 9 17 15 38 0 0) (str "5") [] [] [] [] (str "cover.jpg")
                 test_chapters in
  let env := mkEnv (fun _ => IOk 0) (fun _ => IOk tt) (fun _ => IOFail 2) (IOk tt) in
  WriteID3v2Tag env (str "a.mp3") input = (field_calls input ++ [Close], Some (IOErr 2%nat))
  /\ WriteID3v2Tag env (str "a.mp3") test_track
     = (field_calls test_track ++ [Close], Some (PkgErr ErrZeroDuration)).
Proof.
  intros input env. split.
  - apply (proj1 (WriteID3v2Tag_stage_errors env (str "a.mp3") input 0 tt eq_refl eq_refl) 2%nat).
    + discriminate.
    + reflexivity.
  - pose proof (proj2 (WriteID3v2Tag_stage_errors env (str "a.mp3") test_track 0 tt eq_refl eq_refl)
                  ErrZeroDuration [] ltac:(reflexivity) ltac:(left; reflexivity)) as H.
    rewrite H. reflexivity.
Defined.

Lemma decode_ok_runes (r : Z) (s : bytes) :
  decode_ok r = true -> runes (encode_rune r ++ s) = r :: runes s.
Proof.
  unfold decode_ok.
  destruct (encode_rune r) as [|b0 [|b1 [|b2 [|b3 [|b4 l]]]]]; intro H; try discriminate H;
    cbn [app runes];
    repeat match goal with |- context [if ?c then _ else _] =>
      destruct c; cbn [andb negb] in H; try discriminate H end;
    rewrite andb_true_r in H || idtac; apply Z.eqb_eq in H; now subst.
Qed.

Lemma lor_disjoint (a b k : Z) :
  0 <= k -> a mod 2 ^ k = 0 -> 0 <= b < 2 ^ k -> Z.lor a b = a + b.
Proof.
  intros Hk Ha Hb.
  rewrite Z.add_nocarry_lxor, Z.lxor_lor; [reflexivity| |];
  apply Z.bits_inj'; intros i Hi; rewrite Z.land_spec, Z.bits_0;
  (rewrite (Z.div_mod a (2 ^ k)), Ha, Z.add_0_r by (apply Z.pow_nonzero; lia));
  destruct (Z.lt_ge_cases i k).
  all: try (rewrite Z.mul_comm, <- Z.shiftl_mul_pow2, Z.shiftl_spec_low by lia; reflexivity).
  all: rewrite <- (Z.mod_small b (2 ^ k)) by lia; rewrite Z.mod_pow2_bits_high by lia;
       apply andb_false_r.
Qed.

Lemma land_low (x : Z) (k : Z) : 0 <= k -> Z.land x (Z.ones k) = x mod 2 ^ k.
Proof. apply Z.land_ones. Qed.

Ltac bit_arith :=
  repeat first
    [ rewrite (Z.shiftr_div_pow2 _ 6) by lia
    | rewrite (Z.shiftr_div_pow2 _ 12) by lia
    | rewrite (Z.shiftr_div_pow2 _ 18) by lia
    | rewrite (Z.shiftl_mul_pow2 _ 6) by lia
    | rewrite (Z.shiftl_mul_pow2 _ 12) by lia
    | rewrite (Z.shiftl_mul_pow2 _ 18) by lia
    | rewrite (land_low _ 6) by lia
    | rewrite (land_low _ 5) by lia
    | rewrite (land_low _ 4) by lia
    | rewrite (land_low _ 3) by lia ].

Ltac zdm := Z.div_mod_to_equations; lia.

Lemma encode_rune_2 (r : Z) :
  128 <= r < 2048 -> encode_rune r = [192 + r / 64; 128 + r mod 64].
Proof.
  intros Hr. unfold encode_rune.
  replace ((0 <=? r) && (r <? 128)) with false
    by (symmetry; apply andb_false_iff; right; apply Z.ltb_ge; lia).
  replace ((0 <=? r) && (r <? 2048)) with true
    by (symmetry; apply andb_true_intro; split; [apply Z.leb_le|apply Z.ltb_lt]; lia).
  change 63 with (Z.ones 6). bit_arith.
  rewrite (lor_disjoint 192 _ 6), (lor_disjoint 128 _ 6);
    change (2 ^ 6) with 64; try reflexivity; zdm.
Qed.

Lemma encode_rune_3 (r : Z) :
  2048 <= r < 65536 -> ~ (55296 <= r <= 57343) ->
  encode_rune r = [224 + r / 4096; 128 + (r / 64) mod 64; 128 + r mod 64].
Proof.
  intros Hr Hs. unfold encode_rune.
  replace ((0 <=? r) && (r <? 128)) with false
    by (symmetry; apply andb_false_iff; right; apply Z.ltb_ge; lia).
  replace ((0 <=? r) && (r <? 2048)) with false
    by (symmetry; apply andb_false_iff; right; apply Z.ltb_ge; lia).
  replace ((r <? 0) || (1114111 <? r) || ((55296 <=? r) && (r <=? 57343))) with false.
  2:{ symmetry. destruct (Z.ltb_spec r 0), (Z.ltb_spec 1114111 r), (Z.leb_spec 55296 r),
        (Z.leb_spec r 57343); cbn; try reflexivity; lia. }
  cbv zeta. replace (r <? 65536) with true by (symmetry; apply Z.ltb_lt; lia).
  change 63 with (Z.ones 6). bit_arith.
  rewrite (lor_disjoint 224 _ 4), !(lor_disjoint 128 _ 6);
    change (2 ^ 6) with 64; change (2 ^ 12) with 4096; change (2 ^ 4) with 16;
    try reflexivity; zdm.
Qed.

Lemma encode_rune_4 (r : Z) :
  65536 <= r <= 1114111 ->
  encode_rune r = [240 + r / 262144; 128 + (r / 4096) mod 64; 128 + (r / 64) mod 64;
                   128 + r mod 64].
Proof.
  intros Hr. unfold encode_rune.
  replace ((0 <=? r) && (r <? 128)) with false
    by (symmetry; apply andb_false_iff; right; apply Z.ltb_ge; lia).
  replace ((0 <=? r) && (r <? 2048)) with false
    by (symmetry; apply andb_false_iff; right; apply Z.ltb_ge; lia).
  replace ((r <? 0) || (1114111 <? r) || ((55296 <=? r) && (r <=? 57343))) with false.
  2:{ symmetry. destruct (Z.ltb_spec r 0), (Z.ltb_spec 1114111 r), (Z.leb_spec 55296 r),
        (Z.leb_spec r 57343); cbn; try reflexivity; lia. }
  cbv zeta. replace (r <? 65536) with false by (symmetry; apply Z.ltb_ge; lia).
  change 63 with (Z.ones 6). bit_arith.
  rewrite (lor_disjoint 240 _ 3), !(lor_disjoint 128 _ 6);
    change (2 ^ 6) with 64; change (2 ^ 12) with 4096; change (2 ^ 18) with 262144;
    change (2 ^ 3) with 8; try reflexivity; zdm.
Qed.

Ltac zbool :=
  repeat match goal with
  | |- context [?a =? ?b] => destruct (Z.eqb_spec a b); try (exfalso; zdm)
  | |- context [?a <=? ?b] => destruct (Z.leb_spec a b); try (exfalso; zdm)
  | |- context [?a <? ?b] => destruct (Z.ltb_spec a b); try (exfalso; zdm)
  end; reflexivity.

Lemma valid_decode_ok (r : Z) : valid_scalar r -> decode_ok r = true.
Proof.
  intros [Hr Hs]. unfold decode_ok.
  destruct (Z.lt_ge_cases r 128) as [H1|H1].
  { unfold encode_rune.
    replace ((0 <=? r) && (r <? 128)) with true
      by (symmetry; apply andb_true_intro; split; [apply Z.leb_le|apply Z.ltb_lt]; lia).
    zbool. }
  destruct (Z.lt_ge_cases r 2048) as [H2|H2].
  { rewrite encode_rune_2 by lia. cbv beta iota.
    unfold in_second, second_lo, second_hi.
    change 31 with (Z.ones 5). change 63 with (Z.ones 6). bit_arith.
    rewrite (lor_disjoint _ _ 6) by (change (2 ^ 6) with 64; change (2 ^ 5) with 32; zdm).
    change (2 ^ 6) with 64; change (2 ^ 5) with 32.
    zbool. }
  destruct (Z.lt_ge_cases r 65536) as [H3|H3].
  { rewrite encode_rune_3 by lia. cbv beta iota.
    unfold in_second, second_lo, second_hi, is_cont.
    change 15 with (Z.ones 4). change 63 with (Z.ones 6). bit_arith.
    rewrite (lor_disjoint (_ * 2 ^ 12) _ 12) by (change (2 ^ 12) with 4096;
      change (2 ^ 6) with 64; change (2 ^ 4) with 16; zdm).
    rewrite (lor_disjoint _ _ 6) by (change (2 ^ 12) with 4096; change (2 ^ 6) with 64;
                                      change (2 ^ 4) with 16; zdm).
    change (2 ^ 12) with 4096; change (2 ^ 6) with 64; change (2 ^ 4) with 16.
    zbool. }
  { rewrite encode_rune_4 by lia. cbv beta iota.
    unfold in_second, second_lo, second_hi, is_cont.
    change 7 with (Z.ones 3). change 63 with (Z.ones 6). bit_arith.
    rewrite (lor_disjoint (_ * 2 ^ 18) _ 18) by (change (2 ^ 18) with 262144; change (2 ^ 12) with 4096;
                                      change (2 ^ 3) with 8; zdm).
    rewrite (lor_disjoint (_ + _) _ 12) by (change (2 ^ 18) with 262144; change (2 ^ 12) with 4096;
                                      change (2 ^ 6) with 64; change (2 ^ 3) with 8; zdm).
    rewrite (lor_disjoint _ _ 6) by (change (2 ^ 18) with 262144; change (2 ^ 12) with 4096;
                                      change (2 ^ 6) with 64; change (2 ^ 3) with 8; zdm).
    change (2 ^ 18) with 262144; change (2 ^ 12) with 4096; change (2 ^ 6) with 64;
    change (2 ^ 3) with 8.
    zbool. }
Qed.

Lemma runes_encoded (rs : list Z) :
  Forall valid_scalar rs -> runes (flat_map encode_rune rs) = rs.
Proof.
  induction 1 as [|r rs Hr _ IH]; [reflexivity|].
  cbn [flat_map]. rewrite decode_ok_runes by now apply valid_decode_ok. now rewrite IH.
Qed.

Lemma filter_encode_rune (r : Z) :
  filter (fun b => negb (is_linefeed b)) (encode_rune r)
  = if negb (is_linefeed r) then encode_rune r else [].
Proof.
  destruct ((0 <=? r) && (r <? 128)) eqn:E.
  - unfold encode_rune. rewrite E. cbn [filter].
    destruct (negb (is_linefeed r)); reflexivity.
  - assert (Hall : forall b, In b (encode_rune r) -> negb (is_linefeed b) = true).
    { intros b Hb. destruct (In_encode_rune b r Hb) as [[-> Hr]|H7].
      - apply andb_false_iff in E. destruct E as [E|E]; [apply Z.leb_gt in E|apply Z.ltb_ge in E]; lia.
      - destruct (bit7_not_lf b H7) as [N1 N2]. unfold is_linefeed.
        apply Z.eqb_neq in N1, N2. now rewrite N1, N2. }
    assert (Hr : negb (is_linefeed r) = true).
    { unfold is_linefeed. apply andb_false_iff in E.
      destruct (r =? 10) eqn:E1, (r =? 13) eqn:E2; try reflexivity;
        apply Z.eqb_eq in E1 || apply Z.eqb_eq in E2; subst; cbn in E; intuition discriminate. }
    rewrite Hr. apply forallb_filter_id. apply forallb_forall. exact Hall.
Qed.

(** On valid UTF-8, the line-feed removal of appendKVPair
    ([strings.Map] dropping '\n' and '\r') removes exactly the bytes 10 and
    13 and leaves every other byte in place. *)
Theorem strip_linefeeds_valid_utf8 (v : bytes) :
  valid_utf8 v -> strip_linefeeds v = filter (fun b => negb (is_linefeed b)) v.
Proof.
  intros [rs [Hv ->]]. unfold strip_linefeeds. rewrite (runes_encoded rs Hv).
  induction rs as [|r rs IH]; [reflexivity|].
  inversion Hv as [|? ? _ Hv']. cbn [filter flat_map].
  rewrite filter_app, filter_encode_rune, <- (IH Hv').
  destruct (negb (is_linefeed r)); reflexivity.
Qed.

Lemma strip_linefeeds_valid_utf8_witness :
  valid_utf8 (str "a" ++ [13; 10] ++ [195; 169]) /\
  strip_linefeeds (str "a" ++ [13; 10] ++ [195; 169])
  = filter (fun b => negb (is_linefeed b)) (str "a" ++ [13; 10] ++ [195; 169]).
Proof.
  assert (H : valid_utf8 (str "a" ++ [13; 10] ++ [195; 169])).
  { exists [97; 13; 10; 233]. split.
    - repeat constructor; unfold valid_scalar; lia.
    - reflexivity. }
  split; [exact H | exact (strip_linefeeds_valid_utf8 _ H)].
Defined.
